(** * Region descriptors of a research record: polygon validation

    Shallow embedding of [src/FastAPI/schemas/researches.py]: the
    [PolygonDescription] validators ([validate_coordinates],
    [check_polygon_validity], [has_self_intersections] with its nested
    [do_intersect], [orientation] and [on_segment]) and the
    [CreateResearchRequest] validators ([validate_comment],
    [check_single_text_description]).

    Coordinates are Python floats, that is IEEE 754 binary64 numbers.  They
    are modelled by [spec_float] with the binary64 parameters, whose
    operations round to nearest even and produce infinities and NaN exactly
    as the hardware does.  The arithmetic and the comparisons of the
    geometry kernel read the value of a coordinate.  The comparison of two
    coordinate tuples and the set of the duplicate test compare the items
    as Python containers do, by identity before value, which tells a NaN
    object that occurs twice from two NaN objects; so the validators receive
    float objects, values with an identity.  A validator that raises returns
    [Raise]; the error kinds [TooFewPoints], [NotClosed], ... are the
    [ValueError]s of the source with their messages.

    The file has four parts: the embedding of the source; the predicates the
    statements use; facts about binary64 arithmetic, among them that sums,
    differences, products and comparisons of integers below [2^53] are
    exact; and the properties of the validators. *)

From Stdlib Require Import String ZArith List Bool Lia.
From Stdlib Require Import Floats.SpecFloat.
Import ListNotations.
Local Open Scope string_scope.
Local Open Scope list_scope.

(** ** Python floats *)

Module PyFloat.

Definition prec : Z := 53.
Definition emax : Z := 1024.

Definition float : Type := spec_float.

Definition add (x y : float) : float := SFadd prec emax x y.
Definition sub (x y : float) : float := SFsub prec emax x y.
Definition mul (x y : float) : float := SFmul prec emax x y.

Definition eqb (x y : float) : bool := SFeqb x y.
Definition ltb (x y : float) : bool := SFltb x y.
Definition leb (x y : float) : bool := SFleb x y.
Definition gtb (x y : float) : bool := SFltb y x.
Definition geb (x y : float) : bool := SFleb y x.

(** The float [m * 2^e], rounded; [of_Z z] is the float of the integer [z]. *)
Definition ldexp (m e : Z) : float := binary_normalize prec emax m e false.
Definition of_Z (z : Z) : float := ldexp z 0.

Definition zero : float := S754_zero false.
Definition nan : float := S754_nan.

(** A float that is neither an infinity nor NaN. *)
Definition is_finite (x : float) : bool :=
  match x with
  | S754_zero _ | S754_finite _ _ _ => true
  | S754_infinity _ | S754_nan => false
  end.

Definition is_nan (x : float) : bool :=
  match x with
  | S754_nan => true
  | _ => false
  end.

(** The value is a binary64 number (canonical mantissa and exponent). *)
Definition valid (x : float) : bool := valid_binary prec emax x.

(** The builtins [max(a, b)] and [min(a, b)]: the first argument is kept
    unless the second one is strictly greater (resp. smaller). *)
Definition max (a b : float) : float := if gtb b a then b else a.
Definition min (a b : float) : float := if ltb b a then b else a.

End PyFloat.

Abbreviation float := PyFloat.float.

(** ** Exceptions and results *)

Inductive exn : Type :=
| ValueError (msg : string)
| IndexError
| ValidationError (msg : string).

Inductive result (A : Type) : Type :=
| Ok (a : A)
| Raise (e : exn).

Arguments Ok {A} a.
Arguments Raise {A} e.

Definition bind {A B : Type} (r : result A) (k : A -> result B) : result B :=
  match r with
  | Ok a => k a
  | Raise e => Raise e
  end.

Notation "x <- r ;; k" := (bind r (fun x => k))
  (at level 61, r at next level, right associativity).

Fixpoint mapM {A B : Type} (f : A -> result B) (l : list A) : result (list B) :=
  match l with
  | [] => Ok []
  | a :: l' => b <- f a ;; bs <- mapM f l' ;; Ok (b :: bs)
  end.

(** The error kinds of the specification are the [ValueError]s the validators
    raise, told apart by their message. *)
Definition TooFewPoints : exn :=
  ValueError "Each polygon must have at least 4 points including the closing point".
Definition NotClosed : exn :=
  ValueError "Polygon must be closed, first and last point must be the same".
Definition DuplicateVertex : exn :=
  ValueError "Polygon has repeated points, which is not allowed".
Definition SelfIntersecting : exn :=
  ValueError "Polygon sides intersect with each other".
(** The quotation mark, and the message that holds two of them. *)
Definition quotation_mark : string := String (Ascii.ascii_of_nat 34) EmptyString.
Definition text_limit_message : string :=
  Eval compute in
    String.append "There can be no more than one description with type "
      (String.append quotation_mark (String.append "text" quotation_mark)).
Definition TooManyTextDescriptors : exn := ValueError text_limit_message.

(** ** Points *)

(** The two values of a [tuple[float, float]], which is all the arithmetic
    and the comparisons of the geometry kernel read; [p[0]] is [fst p] and
    [p[1]] is [snd p]. *)
Definition point : Type := (float * float)%type.

(** A float object: its value and the identity of the object. *)
Definition ident : Type := nat.
Definition pyfloat : Type := (float * ident)%type.

(** A coordinate tuple as the validators receive it: its two items are float
    objects; [xy] reads their values. *)
Definition vertex : Type := (pyfloat * pyfloat)%type.

Definition xy (v : vertex) : point := (fst (fst v), fst (snd v)).

(** [a == b] as a tuple comparison and a set lookup decide it for two items:
    the same object, or equal values.  An object whose value is not NaN is
    equal to itself by value already, so the identity decides for NaN only:
    a NaN object is equal to itself and to no other object. *)
Definition item_eqb (a b : pyfloat) : bool :=
  PyFloat.eqb (fst a) (fst b)
  || (PyFloat.is_nan (fst a) && PyFloat.is_nan (fst b) && (snd a =? snd b)%nat).

(** [p == q] for two coordinate tuples, item by item; [p != q] is its
    negation. *)
Definition tuple_eqb (p q : vertex) : bool :=
  item_eqb (fst p) (fst q) && item_eqb (snd p) (snd q).

(** The tuple of two float objects with the values of [p] and the identities
    [n] and [n + 1]; [objects l] makes every coordinate of [l] a float
    object of its own, as when each number was created separately. *)
Definition fresh (p : point) (n : ident) : vertex :=
  ((fst p, n), (snd p, S n)).

Fixpoint objects_from (n : ident) (l : list point) : list vertex :=
  match l with
  | [] => []
  | p :: l' => fresh p n :: objects_from (S (S n)) l'
  end.

Definition objects (l : list point) : list vertex := objects_from 0 l.

Definition translate (t p : point) : point :=
  (PyFloat.add (fst p) (fst t), PyFloat.add (snd p) (snd t)).

Definition point_of_Z (x y : Z) : point := (PyFloat.of_Z x, PyFloat.of_Z y).

(** Both coordinates are binary64 numbers. *)
Definition valid_point (p : point) : bool :=
  PyFloat.valid (fst p) && PyFloat.valid (snd p).

(** ** Geometry kernel: the functions nested in [has_self_intersections] *)

Definition orientation_val (p q r : point) : float :=
  PyFloat.sub
    (PyFloat.mul (PyFloat.sub (snd q) (snd p)) (PyFloat.sub (fst r) (fst q)))
    (PyFloat.mul (PyFloat.sub (fst q) (fst p)) (PyFloat.sub (snd r) (snd q))).

Definition orientation (p q r : point) : Z :=
  let val := orientation_val p q r in
  if PyFloat.eqb val PyFloat.zero then 0%Z
  else if PyFloat.gtb val PyFloat.zero then 1%Z
  else 2%Z.

Definition on_segment (p q r : point) : bool :=
  PyFloat.leb (fst q) (PyFloat.max (fst p) (fst r)) &&
  PyFloat.geb (fst q) (PyFloat.min (fst p) (fst r)) &&
  PyFloat.leb (snd q) (PyFloat.max (snd p) (snd r)) &&
  PyFloat.geb (snd q) (PyFloat.min (snd p) (snd r)).

Definition do_intersect (p1 q1 p2 q2 : point) : bool :=
  let o1 := orientation p1 q1 p2 in
  let o2 := orientation p1 q1 q2 in
  let o3 := orientation p2 q2 p1 in
  let o4 := orientation p2 q2 q1 in
  if negb (o1 =? o2)%Z && negb (o3 =? o4)%Z then true
  else if (o1 =? 0)%Z && on_segment p1 p2 q1 then true
  else if (o2 =? 0)%Z && on_segment p1 q2 q1 then true
  else if (o3 =? 0)%Z && on_segment p2 p1 q2 then true
  else if (o4 =? 0)%Z && on_segment p2 q1 q2 then true
  else false.

(** [range(a, b)] *)
Definition range (a b : nat) : list nat := seq a (b - a).

(** [coordinates[i]]; every index the scan uses is in range
    (lemma [scan_indices_in_range]), so the default is never returned. *)
Definition getitem (coordinates : list point) (i : nat) : point :=
  nth i coordinates (PyFloat.nan, PyFloat.nan).

Definition has_self_intersections (coordinates : list point) : bool :=
  let n := length coordinates in
  existsb
    (fun i =>
       existsb
         (fun j =>
            do_intersect (getitem coordinates i) (getitem coordinates (i + 1))
                         (getitem coordinates j) (getitem coordinates (j + 1)))
         (range (i + 1) (n - 1)))
    (range 0 (n - 2)).

(** ** Polygon descriptor *)

Record PolygonDescription : Type := {
  polygon_type : string;
  coordinates : list vertex;
  polygon_text : string
}.

(** [set(l)] for a list of coordinate tuples: an element is added unless the
    set already holds an equal one.  Equal tuples have equal hashes (equal
    values hash alike, an object hashes like itself), so the lookup finds
    the equal element. *)
Definition set_add (s : list vertex) (p : vertex) : list vertex :=
  if existsb (fun k => tuple_eqb k p) s then s else s ++ [p].

Definition set_of (l : list vertex) : list vertex := fold_left set_add l [].

(** Field validator of [coordinates] (mode "before"). *)
Definition validate_coordinates (v : list vertex) : result (list vertex) :=
  if (length v <? 4)%nat then Raise TooFewPoints else Ok v.

(** Model validator (mode "after").  [has_self_intersections] is handed the
    same list; it reads the values of the coordinates only. *)
Definition check_polygon_validity (values : PolygonDescription)
  : result PolygonDescription :=
  let cs := values.(coordinates) in
  match cs with
  | [] => Raise IndexError
  | first :: _ =>
      if negb (tuple_eqb first (last cs first)) then Raise NotClosed
      else if negb (length (set_of (removelast cs)) =? length (removelast cs))%nat
           then Raise DuplicateVertex
      else if has_self_intersections (map xy cs) then Raise SelfIntersecting
      else Ok values
  end.

(** Construction of a [PolygonDescription]: the field validator, then the
    model validator. *)
Definition new_PolygonDescription (type : string) (coords : list vertex)
  (text : string) : result PolygonDescription :=
  v <- validate_coordinates coords ;;
  check_polygon_validity
    {| polygon_type := type; coordinates := v; polygon_text := text |}.

(** The polygon validator on a bare vertex sequence; success hands back the
    vertex sequence of the validated descriptor. *)
Definition validate_polygon (vertices : list vertex) : result (list vertex) :=
  d <- new_PolygonDescription "polygon" vertices "" ;;
  Ok d.(coordinates).

Definition square : list point :=
  [point_of_Z 0 0; point_of_Z 0 1; point_of_Z 1 1; point_of_Z 1 0; point_of_Z 0 0].

(** ** Descriptors and the research request *)

Record TextDescription : Type := {
  text_type : string;
  text_text : string
}.

Record PointDescription : Type := {
  point_type : string;
  point_coordinates : vertex;
  point_text : string
}.

(** [Description = Union[TextDescription, PolygonDescription, PointDescription]] *)
Inductive Description : Type :=
| IsText (d : TextDescription)
| IsPolygon (d : PolygonDescription)
| IsPoint (d : PointDescription).

(** [isinstance(desc, TextDescription)] *)
Definition isinstance_TextDescription (desc : Description) : bool :=
  match desc with
  | IsText _ => true
  | _ => false
  end.

(** Validation of one member of [descriptions], already told apart by the
    union: only a polygon has validators of its own. *)
Definition validate_description (desc : Description) : result Description :=
  match desc with
  | IsPolygon d =>
      d' <- new_PolygonDescription d.(polygon_type) d.(coordinates) d.(polygon_text) ;;
      Ok (IsPolygon d')
  | _ => Ok desc
  end.

(** The values a raw [research_comment] may hold before its type is checked. *)
Inductive pyobj : Type :=
| PyNone
| PyStr (s : string)
| PyInt (z : Z)
| PyBool (b : bool)
| PyFloatObj (x : float).

Definition date : Type := (Z * Z * Z)%type.

Record CreateResearchRequest : Type := {
  research_name : string;
  day_start : date;
  research_comment : option string;
  approval_required : bool;
  descriptions : list Description
}.

(** Field validator of [research_comment] (mode "before"). *)
Definition validate_comment (v : pyobj) : pyobj :=
  match v with
  | PyNone => PyStr ""
  | _ => v
  end.

(** The declared type [str | None] of [research_comment]. *)
Definition str_or_None (v : pyobj) : result (option string) :=
  match v with
  | PyNone => Ok None
  | PyStr s => Ok (Some s)
  | _ => Raise (ValidationError "Input should be a valid string")
  end.

Definition text_descriptions (ds : list Description) : list Description :=
  filter isinstance_TextDescription ds.

(** Model validator (mode "after").  The message of the source puts [text]
    between quotation marks. *)
Definition check_single_text_description (values : CreateResearchRequest)
  : result CreateResearchRequest :=
  if (1 <? length (text_descriptions values.(descriptions)))%nat
  then Raise TooManyTextDescriptors
  else Ok values.

(** Construction of a [CreateResearchRequest]: the fields in their order of
    declaration, then the model validator.  [approval_required] defaults to
    [True].  The first failure stands for the list of errors the framework
    collects; [ValidationError] is its own type error. *)
Definition new_CreateResearchRequest (name : string) (day : date)
  (comment : pyobj) (approval : option bool) (descs : list Description)
  : result CreateResearchRequest :=
  c <- str_or_None (validate_comment comment) ;;
  ds <- mapM validate_description descs ;;
  check_single_text_description
    {| research_name := name;
       day_start := day;
       research_comment := c;
       approval_required := match approval with Some b => b | None => true end;
       descriptions := ds |}.

(** The record-level validator on a bare descriptor collection. *)
Definition validate_collection (descs : list Description)
  : result (list Description) :=
  ds <- mapM validate_description descs ;;
  r <- check_single_text_description
         {| research_name := ""; day_start := (1, 1, 1)%Z;
            research_comment := Some ""; approval_required := true;
            descriptions := ds |} ;;
  Ok r.(descriptions).

(** * Predicates used in the statements *)

Import PyFloat.

(** ** Floats *)

Definition is_zero (x : float) : bool :=
  match x with
  | S754_zero _ => true
  | _ => false
  end.

(** Equality up to the sign of zero. *)
Definition feq (x y : float) : Prop :=
  x = y \/ (is_zero x = true /\ is_zero y = true).

(** The rounding record of a mantissa of which nothing was shifted out. *)
Definition exact_record (m : positive) : shr_record :=
  {| shr_m := Zpos m; shr_r := false; shr_s := false |}.

(** An integer below [2^53] in absolute value: binary64 holds it exactly. *)
Definition small (z : Z) : Prop := (Z.abs z < 2 ^ 53)%Z.

(** ** Edges and segments *)

Definition finite_point (p : point) : bool :=
  is_finite (fst p) && is_finite (snd p).

(** The end points of the edge from [p] to [q] are finite and so are the two
    coordinate differences [q - p]: the subtraction does not overflow. *)
Definition finite_edge (p q : point) : bool :=
  finite_point p && finite_point q &&
  is_finite (sub (fst q) (fst p)) && is_finite (sub (snd q) (snd p)).

(** The product of the two coordinate differences of the edge is finite. *)
Definition finite_cross (p q : point) : bool :=
  is_finite (mul (sub (snd q) (snd p)) (sub (fst q) (fst p))).

Definition tame_edge (p q : point) : bool :=
  finite_edge p q && finite_cross p q.

(** The two segments have an end point in common. *)
Definition share_endpoint (p1 q1 p2 q2 : point) : Prop :=
  p1 = p2 \/ p1 = q2 \/ q1 = p2 \/ q1 = q2.

(** The test the collinear branches of [do_intersect] make: [r] is collinear
    with the segment from [p] to [q] and inside its bounding box. *)
Definition lies_on (p q r : point) : bool :=
  (orientation p q r =? 0)%Z && on_segment p r q.

Definition collinear_contact (p1 q1 p2 q2 : point) : bool :=
  lies_on p1 q1 p2 || lies_on p1 q1 q2 || lies_on p2 q2 p1 || lies_on p2 q2 q1.

(** ** Integer coordinates: the kernel in exact arithmetic *)

(** A point with integer coordinates, and the float point it is parsed to. *)
Definition zpoint : Type := (Z * Z)%type.

Definition float_point (p : zpoint) : point := point_of_Z (fst p) (snd p).

(** Coordinates below [2^25] in absolute value: differences stay below
    [2^26], their products below [2^52] and the cross product below [2^53]. *)
Definition in_grid (p : zpoint) : Prop :=
  (Z.abs (fst p) < 2 ^ 25 /\ Z.abs (snd p) < 2 ^ 25)%Z.

(** The cross product of [q - p] and [r - q], as [orientation] writes it. *)
Definition cross (p q r : zpoint) : Z :=
  ((snd q - snd p) * (fst r - fst q) - (fst q - fst p) * (snd r - snd q))%Z.

(** [orientation] and [on_segment], read on integers. *)
Definition orientation_Z (p q r : zpoint) : Z :=
  let val := cross p q r in
  if (val =? 0)%Z then 0%Z else if (0 <? val)%Z then 1%Z else 2%Z.

Definition on_segment_Z (p q r : zpoint) : bool :=
  (fst q <=? Z.max (fst p) (fst r))%Z && (Z.min (fst p) (fst r) <=? fst q)%Z &&
  (snd q <=? Z.max (snd p) (snd r))%Z && (Z.min (snd p) (snd r) <=? snd q)%Z.

(** [r] is on the closed segment from [p] to [q]. *)
Definition lies_on_Z (p q r : zpoint) : bool :=
  (cross p q r =? 0)%Z && on_segment_Z p r q.

(** An end point of one segment is on the other segment. *)
Definition contact_Z (p1 q1 p2 q2 : zpoint) : bool :=
  lies_on_Z p1 q1 p2 || lies_on_Z p1 q1 q2 ||
  lies_on_Z p2 q2 p1 || lies_on_Z p2 q2 q1.

(** The four points have integer coordinates below [2^25], and an end point
    of one of the two segments is on the other segment. *)
Definition grid_contact (p1 q1 p2 q2 : point) : Prop :=
  exists a b c d : zpoint,
    in_grid a /\ in_grid b /\ in_grid c /\ in_grid d /\
    (p1 = float_point a /\ q1 = float_point b /\
     p2 = float_point c /\ q2 = float_point d) /\
    contact_Z a b c d = true.

(** ** Vertex sequences *)

(** The first and the last point of a vertex sequence,
    [coordinates[0]] and [coordinates[-1]]. *)
Definition first_last (l : list vertex) : option (vertex * vertex) :=
  match l with
  | [] => None
  | p :: _ => Some (p, last l p)
  end.

(** Some point occurs twice in the list: two of its entries are equal. *)
Definition repeated_point (l : list vertex) : Prop :=
  exists l1 x l2 y l3,
    l = l1 ++ x :: l2 ++ y :: l3 /\ tuple_eqb x y = true.

(** The large triangle with corners [(-2^1023, -2^1023)], [(2^1023, -2^1023)]
    and [(0, 2^1023)]: every coordinate is finite, the width [2^1024] of its
    base is not. *)
Definition huge : float := ldexp 1 1023.

Definition neg_huge : float := ldexp (-1) 1023.

Definition huge_triangle : list point :=
  [(neg_huge, neg_huge); (huge, neg_huge); (zero, huge); (neg_huge, neg_huge)].

(** ** Translations and collections *)

(** The translation by [t] leaves the coordinate differences of the edge from
    [p] to [q] as they are, up to the sign of a zero; this is so whenever the
    additions and the subtractions are exact. *)
Definition keeps_differences (t p q : point) : Prop :=
  feq (sub (fst (translate t q)) (fst (translate t p))) (sub (fst q) (fst p)) /\
  feq (sub (snd (translate t q)) (snd (translate t p))) (sub (snd q) (snd p)).

(** Integer coordinates below [2^52]: neither the translation nor the
    differences are rounded. *)
Definition fits_52 (z : Z) : Prop := (Z.abs z < 2 ^ 52)%Z.

(** The descriptor passes its own validation unchanged. *)
Definition valid_description (d : Description) : Prop :=
  validate_description d = Ok d.

(** ** Further predicates *)

(** The classification [orientation] makes of its cross product. *)
Definition orientation_code (val : float) : Z :=
  if eqb val zero then 0%Z else if gtb val zero then 1%Z else 2%Z.

(** One of the two coordinates is NaN. *)
Definition has_nan (p : point) : bool := is_nan (fst p) || is_nan (snd p).

(** Two coordinate tuples with the same values, none of them NaN. *)
Definition same_values (p p' : vertex) : Prop :=
  xy p = xy p' /\ has_nan (xy p) = false.

(** [coordinates[0] == coordinates[-1]] *)
Definition is_closed (l : list vertex) : bool :=
  match first_last l with
  | Some (p, q) => tuple_eqb p q
  | None => false
  end.

(** The edges [i] and [j] of the vertex sequence, [i] before [j], are
    reported as intersecting. *)
Definition intersecting_pair (l : list point) (i j : nat) : Prop :=
  (i < j)%nat /\ (j + 1 < length l)%nat /\
  do_intersect (getitem l i) (getitem l (i + 1))
               (getitem l j) (getitem l (j + 1)) = true.

Definition translate_Z (t p : zpoint) : zpoint :=
  (fst p + fst t, snd p + snd t)%Z.

(** Coordinates below [2^24] in absolute value: a translation by such a
    vector keeps a point of that kind inside the grid. *)
Definition in_half_grid (p : zpoint) : Prop :=
  (Z.abs (fst p) < 2 ^ 24 /\ Z.abs (snd p) < 2 ^ 24)%Z.

(** [do_intersect], read on integers. *)
Definition do_intersect_Z (p1 q1 p2 q2 : zpoint) : bool :=
  (negb (orientation_Z p1 q1 p2 =? orientation_Z p1 q1 q2)%Z &&
   negb (orientation_Z p2 q2 p1 =? orientation_Z p2 q2 q1)%Z)
  || contact_Z p1 q1 p2 q2.

(** * Facts about binary64 arithmetic *)

Module PyFloatFacts.
Import PyFloat.

Lemma feq_refl x : feq x x.
Proof. now left. Qed.

Lemma feq_sym x y : feq x y -> feq y x.
Proof. intros [H | [H1 H2]]; [left; congruence | right; auto]. Qed.

Lemma feq_trans x y z : feq x y -> feq y z -> feq x z.
Proof.
  intros [-> | [Hx Hy]] [<- | [Hy' Hz]]; try (now left); right; auto.
Qed.

Lemma feq_finite x y : feq x y -> is_finite x = is_finite y.
Proof.
  intros [-> | [Hx Hy]]; [reflexivity|].
  destruct x, y; simpl in *; congruence.
Qed.

Lemma is_zero_finite x : is_zero x = true -> is_finite x = true.
Proof. destruct x; simpl; congruence. Qed.

(** ** Comparison *)

Lemma compare_antisym x y :
  SFcompare y x = option_map CompOpp (SFcompare x y).
Proof.
  destruct x as [sx | sx | | sx mx ex], y as [sy | sy | | sy my ey];
    simpl; try reflexivity;
    try (destruct sx; reflexivity); try (destruct sy; reflexivity);
    try (destruct sx, sy; reflexivity).
  pose proof (Pos.compare_cont_antisym mx my Eq) as H; simpl in H.
  destruct sx, sy; try reflexivity;
    rewrite (Z.compare_antisym ex ey);
    destruct (ex ?= ey)%Z; simpl; try rewrite H; reflexivity.
Qed.

Lemma compare_refl x : is_nan x = false -> SFcompare x x = Some Eq.
Proof.
  destruct x as [s | s | | s m e]; simpl; try congruence;
    try (destruct s; reflexivity).
  intros _. rewrite Z.compare_refl.
  change (Pos.compare_cont Eq m m) with (Pos.compare m m).
  rewrite Pos.compare_refl. destruct s; reflexivity.
Qed.

Lemma compare_not_nan x y :
  is_nan x = false -> is_nan y = false -> exists c, SFcompare x y = Some c.
Proof.
  destruct x, y; simpl; intros; try congruence; eauto.
Qed.

Lemma finite_not_nan x : is_finite x = true -> is_nan x = false.
Proof. destruct x; simpl; congruence. Qed.

Lemma eqb_sym x y : eqb x y = eqb y x.
Proof.
  unfold eqb, SFeqb. rewrite (compare_antisym x y).
  destruct (SFcompare x y) as [[ | | ] | ]; reflexivity.
Qed.

Lemma leb_refl x : is_nan x = false -> leb x x = true.
Proof. intros H. unfold leb, SFleb. now rewrite compare_refl. Qed.

Lemma ltb_leb x y : ltb x y = true -> leb x y = true.
Proof.
  unfold ltb, leb, SFltb, SFleb.
  destruct (SFcompare x y) as [[ | | ] | ]; congruence.
Qed.

Lemma not_ltb_leb x y :
  is_nan x = false -> is_nan y = false -> ltb x y = false -> leb y x = true.
Proof.
  intros Hx Hy. unfold ltb, leb, SFltb, SFleb.
  rewrite (compare_antisym x y).
  destruct (compare_not_nan x y Hx Hy) as [c ->].
  destruct c; simpl; congruence.
Qed.

(** [b <= max(a, b)], [min(a, b) <= b], [a <= max(a, b)], [min(a, b) <= a]. *)
Lemma leb_max_r a b :
  is_nan a = false -> is_nan b = false -> leb b (max a b) = true.
Proof.
  intros Ha Hb. unfold max, gtb. fold (ltb a b).
  destruct (ltb a b) eqn:E.
  - now apply leb_refl.
  - now apply not_ltb_leb.
Qed.

Lemma geb_min_r a b :
  is_nan a = false -> is_nan b = false -> geb b (min a b) = true.
Proof.
  intros Ha Hb. unfold min, geb. fold (leb (if ltb b a then b else a) b).
  destruct (ltb b a) eqn:E.
  - now apply leb_refl.
  - now apply not_ltb_leb.
Qed.

Lemma leb_max_l a b :
  is_nan a = false -> is_nan b = false -> leb a (max a b) = true.
Proof.
  intros Ha Hb. unfold max, gtb. fold (ltb a b).
  destruct (ltb a b) eqn:E.
  - now apply ltb_leb.
  - now apply leb_refl.
Qed.

Lemma geb_min_l a b :
  is_nan a = false -> is_nan b = false -> geb a (min a b) = true.
Proof.
  intros Ha Hb. unfold min, geb. fold (leb (if ltb b a then b else a) a).
  destruct (ltb b a) eqn:E.
  - now apply ltb_leb.
  - now apply leb_refl.
Qed.

Lemma eqb_zero x : is_zero x = true -> eqb x zero = true.
Proof. destruct x; simpl; try congruence. intros _; reflexivity. Qed.

(** ** Subtraction and multiplication *)

Lemma sub_diag x : is_finite x = true -> sub x x = zero.
Proof.
  destruct x as [s | s | | s m e]; simpl; try congruence; intros _.
  - destruct s; reflexivity.
  - unfold sub, SFsub. rewrite Z.sub_diag. reflexivity.
Qed.

Lemma mul_zero_r a z :
  is_finite a = true -> is_zero z = true -> is_zero (mul a z) = true.
Proof. destruct a, z; simpl; congruence. Qed.

Lemma sub_zero_zero a b :
  is_zero a = true -> is_zero b = true -> is_zero (sub a b) = true.
Proof.
  destruct a as [sa | | | ], b as [sb | | | ]; simpl; try congruence.
  destruct sa, sb; reflexivity.
Qed.

Lemma binary_round_aux_opp s m e l :
  binary_round_aux prec emax (negb s) m e l
  = SFopp (binary_round_aux prec emax s m e l).
Proof.
  unfold binary_round_aux.
  destruct (shr_fexp prec emax m e l) as [mrs' e'].
  destruct (shr_fexp prec emax _ e' loc_Exact) as [mrs'' e''].
  destruct (shr_m mrs''); try reflexivity.
  destruct (e'' <=? emax - prec)%Z; reflexivity.
Qed.

Lemma binary_round_opp s m e :
  binary_round prec emax (negb s) m e = SFopp (binary_round prec emax s m e).
Proof.
  unfold binary_round.
  destruct (shl_align m e _) as [mz ez].
  apply binary_round_aux_opp.
Qed.

Lemma binary_normalize_opp m e :
  feq (binary_normalize prec emax (- m) e false)
      (SFopp (binary_normalize prec emax m e false)).
Proof.
  destruct m as [ | p | p]; simpl.
  - right. split; reflexivity.
  - left. apply (binary_round_opp false).
  - left. rewrite (binary_round_opp false). 
    destruct (binary_round prec emax false p e) as [[]|[]| |[]]; reflexivity.
Qed.

Lemma sub_antisym x y : feq (sub y x) (SFopp (sub x y)).
Proof.
  destruct x as [sx | sx | | sx mx ex], y as [sy | sy | | sy my ey];
    try (left; reflexivity);
    try (destruct sx, sy; (left; reflexivity) || (right; split; reflexivity)).
  unfold sub, SFsub. rewrite (Z.min_comm ey ex).
  set (X := cond_Zopp sx _). set (Y := cond_Zopp sy _).
  replace (Y - X)%Z with (- (X - Y))%Z by lia.
  apply binary_normalize_opp.
Qed.

Lemma mul_comm x y : mul x y = mul y x.
Proof.
  destruct x as [sx | sx | | sx mx ex], y as [sy | sy | | sy my ey];
    simpl; try reflexivity; try (now rewrite xorb_comm).
  unfold mul, SFmul.
  now rewrite xorb_comm, Pos.mul_comm, Z.add_comm.
Qed.

Lemma mul_opp_r x y : mul x (SFopp y) = SFopp (mul x y).
Proof.
  destruct x as [sx | sx | | sx mx ex], y as [sy | sy | | sy my ey];
    simpl; try reflexivity; try (destruct sx, sy; reflexivity).
  unfold mul, SFmul. simpl.
  replace (xorb sx (negb sy)) with (negb (xorb sx sy))
    by (destruct sx, sy; reflexivity).
  apply binary_round_aux_opp.
Qed.

Lemma mul_feq_r a c c' : feq c c' -> feq (mul a c) (mul a c').
Proof.
  intros [-> | [Hc Hc']]; [apply feq_refl|].
  destruct c, c'; simpl in *; try congruence.
  destruct a; simpl; (left; reflexivity) || (right; split; reflexivity).
Qed.

Lemma opp_feq x y : feq x y -> feq (SFopp x) (SFopp y).
Proof.
  intros [-> | [Hx Hy]]; [apply feq_refl|].
  right. destruct x, y; simpl in *; try congruence; auto.
Qed.

Lemma opp_finite x : is_finite (SFopp x) = is_finite x.
Proof. destruct x; reflexivity. Qed.

Lemma sub_feq_zero x y :
  feq x y -> is_finite x = true -> is_zero (sub x y) = true.
Proof.
  intros [<- | [Hx Hy]] Hf.
  - now rewrite sub_diag.
  - now apply sub_zero_zero.
Qed.

Lemma mul_feq a a' c c' : feq a a' -> feq c c' -> feq (mul a c) (mul a' c').
Proof.
  intros Ha Hc. apply feq_trans with (mul a c'); [now apply mul_feq_r|].
  rewrite (mul_comm a c'), (mul_comm a' c'). now apply mul_feq_r.
Qed.

Lemma sub_feq a a' b b' : feq a a' -> feq b b' -> feq (sub a b) (sub a' b').
Proof.
  intros [-> | [Ha Ha']] [-> | [Hb Hb']]; [apply feq_refl| | |].
  - destruct b as [sb | | | ], b' as [sb' | | | ]; simpl in *; try congruence.
    destruct a' as [sa | sa | | sa ma ea]; try (left; reflexivity).
    right. destruct sa, sb, sb'; split; reflexivity.
  - destruct a as [sa | | | ], a' as [sa' | | | ]; simpl in *; try congruence.
    destruct b' as [sb | sb | | sb mb eb]; try (left; reflexivity).
    right. destruct sa, sa', sb; split; reflexivity.
  - right. split; now apply sub_zero_zero.
Qed.

Lemma compare_feq x y z : feq x y -> SFcompare x z = SFcompare y z.
Proof.
  intros [-> | [Hx Hy]]; [reflexivity|].
  destruct x, y; simpl in *; congruence.
Qed.

Lemma eqb_feq x y z : feq x y -> eqb x z = eqb y z.
Proof. intros H. unfold eqb, SFeqb. now rewrite (compare_feq _ _ z H). Qed.

Lemma gtb_feq x y z : feq x y -> gtb x z = gtb y z.
Proof.
  intros H. unfold gtb, SFltb.
  now rewrite (compare_antisym x z), (compare_antisym y z), (compare_feq _ _ z H).
Qed.

End PyFloatFacts.

(** * Integers in binary64: sums and differences without rounding *)

Module Exact.
Import PyFloat PyFloatFacts.

Lemma iter_pos_iter {A : Type} (f : A -> A) (p : positive) (x : A) :
  iter_pos f p x = Pos.iter f x p.
Proof.
  revert x. induction p as [p IH | p IH | ]; intros x; simpl.
  - rewrite !IH. now rewrite !Pos.iter_swap.
  - now rewrite !IH.
  - reflexivity.
Qed.

Lemma iter_pos_add {A : Type} (f : A -> A) (p q : positive) (x : A) :
  iter_pos f (p + q) x = iter_pos f p (iter_pos f q x).
Proof. rewrite !iter_pos_iter. apply Pos.iter_add. Qed.

Lemma shr_1_xO (m : positive) : shr_1 (exact_record (xO m)) = exact_record m.
Proof. reflexivity. Qed.

(** Shifting out the zeros that were shifted in. *)
Lemma shr_shl (k m : positive) :
  iter_pos shr_1 k (exact_record (Pos.iter xO m k)) = exact_record m.
Proof.
  rewrite iter_pos_iter. revert m.
  induction k as [ | k IH] using Pos.peano_ind; intros m.
  - reflexivity.
  - rewrite (Pos.iter_succ k _ xO), (Pos.iter_succ_r k _ shr_1).
    rewrite shr_1_xO. apply IH.
Qed.

Lemma digits_shl (k m : positive) :
  digits2_pos (Pos.iter xO m k) = (digits2_pos m + k)%positive.
Proof.
  induction k as [ | k IH] using Pos.peano_ind.
  - simpl. now rewrite Pos.add_1_r.
  - rewrite Pos.iter_succ. simpl. rewrite IH. now rewrite Pos.add_succ_r.
Qed.

Lemma shl_shl (j k m : positive) :
  Pos.iter xO (Pos.iter xO m k) j = Pos.iter xO m (j + k).
Proof. symmetry. apply Pos.iter_add. Qed.

Lemma Zpos_shl (k m : positive) :
  Zpos (Pos.iter xO m k) = (Zpos m * 2 ^ Zpos k)%Z.
Proof.
  induction k as [ | k IH] using Pos.peano_ind.
  - simpl. lia.
  - rewrite Pos.iter_succ, Pos2Z.inj_succ, Z.pow_succ_r by lia.
    rewrite Pos2Z.inj_xO, IH. lia.
Qed.


Lemma shr_fexp_exact (mz : positive) (ez : Z) :
  shr_fexp prec emax (Zpos mz) ez loc_Exact
  = shr (exact_record mz) ez
        (fexp prec emax (Zpos (digits2_pos mz) + ez) - ez).
Proof. reflexivity. Qed.

(** The first step of rounding [m * 2^e] only depends on the value: shifting
    [k] zeros into the mantissa and lowering the exponent by [k] changes
    nothing. *)
Lemma align_shift (k m : positive) (e : Z) :
  let fe := fexp prec emax (Zpos (digits2_pos m) + e) in
  (let '(mz, ez) := shl_align (Pos.iter xO m k) (e - Zpos k) fe in
   shr_fexp prec emax (Zpos mz) ez loc_Exact)
  = (let '(mz, ez) := shl_align m e fe in
     shr_fexp prec emax (Zpos mz) ez loc_Exact).
Proof.
  intros fe. unfold shl_align.
  destruct (fe - (e - Zpos k))%Z as [ | j | j] eqn:E1;
    destruct (fe - e)%Z as [ | i | i] eqn:E2; try lia;
    rewrite !shr_fexp_exact, ?digits_shl, ?Pos2Z.inj_add.
  - (* fe = e - k *)
    replace (Zpos (digits2_pos m) + Zpos k + (e - Zpos k))%Z
      with (Zpos (digits2_pos m) + e)%Z by lia.
    replace (Zpos (digits2_pos m) + Zpos i + fe)%Z
      with (Zpos (digits2_pos m) + e)%Z by lia.
    fold fe. rewrite E1, Z.sub_diag. cbn [shr].
    assert (i = k) by lia. subst i. f_equal. lia.
  - (* fe = e *)
    replace (Zpos (digits2_pos m) + Zpos k + (e - Zpos k))%Z
      with (Zpos (digits2_pos m) + e)%Z by lia.
    fold fe. rewrite E1, E2. cbn [shr].
    assert (j = k) by lia. subst j. rewrite shr_shl. f_equal. lia.
  - (* fe > e *)
    replace (Zpos (digits2_pos m) + Zpos k + (e - Zpos k))%Z
      with (Zpos (digits2_pos m) + e)%Z by lia.
    fold fe. rewrite E1, E2. cbn [shr].
    assert (j = (i + k)%positive) by lia. subst j.
    rewrite iter_pos_add, shr_shl. f_equal. lia.
  - (* e - k < fe < e *)
    replace (Zpos (digits2_pos m) + Zpos k + (e - Zpos k))%Z
      with (Zpos (digits2_pos m) + e)%Z by lia.
    replace (Zpos (digits2_pos m) + Zpos i + fe)%Z
      with (Zpos (digits2_pos m) + e)%Z by lia.
    fold fe. rewrite E1, Z.sub_diag. cbn [shr].
    assert (k = (j + i)%positive) by lia. subst k.
    rewrite <- shl_shl, shr_shl. f_equal. lia.
  - (* fe < e - k *)
    rewrite shl_shl.
    assert (i = (j + k)%positive) by lia. subst i.
    replace (Zpos (digits2_pos m) + Zpos k + Zpos j + fe)%Z
      with (Zpos (digits2_pos m) + Zpos (j + k) + fe)%Z by lia.
    reflexivity.
Qed.

Lemma binary_round_shift (s : bool) (k m : positive) (e : Z) :
  binary_round prec emax s (Pos.iter xO m k) (e - Zpos k)
  = binary_round prec emax s m e.
Proof.
  pose proof (align_shift k m e) as H. cbv zeta in H.
  unfold binary_round.
  rewrite digits_shl, Pos2Z.inj_add.
  replace (Zpos (digits2_pos m) + Zpos k + (e - Zpos k))%Z
    with (Zpos (digits2_pos m) + e)%Z by lia.
  destruct (shl_align (Pos.iter xO m k) _ _) as [mz1 ez1].
  destruct (shl_align m e _) as [mz2 ez2].
  unfold binary_round_aux. rewrite H. reflexivity.
Qed.


(** A canonical mantissa and exponent are left as they are. *)
Lemma binary_round_canonical (s : bool) (m : positive) (e : Z) :
  bounded prec emax m e = true ->
  binary_round prec emax s m e = S754_finite s m e.
Proof.
  unfold bounded, canonical_mantissa. rewrite andb_true_iff.
  intros [Hc He]. apply Z.eqb_eq in Hc.
  unfold binary_round. rewrite Hc.
  unfold shl_align. rewrite Z.sub_diag.
  unfold binary_round_aux.
  rewrite shr_fexp_exact, Hc, Z.sub_diag.
  cbn [shr exact_record shr_m loc_of_shr_record round_nearest_even].
  rewrite shr_fexp_exact, Hc, Z.sub_diag.
  cbn [shr exact_record shr_m]. now rewrite He.
Qed.

Lemma digits_size (n : positive) : digits2_pos n = Pos.size n.
Proof. induction n as [n IH | n IH | ]; simpl; now rewrite ?IH. Qed.

Lemma digits_small (n : positive) :
  (Zpos n < 2 ^ 53)%Z -> (Zpos (digits2_pos n) <= 53)%Z.
Proof.
  intros H. rewrite digits_size.
  pose proof (Pos.size_le n) as Hle.
  assert (Hz : (2 ^ Zpos (Pos.size n) <= 2 * Zpos n)%Z).
  { rewrite <- Pos2Z.inj_pow. change (2 * Zpos n)%Z with (Zpos n~0). lia. }
  destruct (Z.le_gt_cases (Zpos (Pos.size n)) 53) as [Hs | Hs]; [exact Hs|].
  assert (2 ^ 54 <= 2 ^ Zpos (Pos.size n))%Z
    by (apply Z.pow_le_mono_r; lia).
  change (2 ^ 54)%Z with (2 * 2 ^ 53)%Z in *. lia.
Qed.

Lemma digits_bounds (m : positive) :
  Zpos (digits2_pos m) = 53%Z -> (2 ^ 52 <= Zpos m < 2 ^ 53)%Z.
Proof.
  rewrite digits_size. intros H.
  pose proof (Pos.size_gt m) as Hgt. pose proof (Pos.size_le m) as Hle.
  apply Pos2Z.pos_lt_pos in Hgt. apply Pos2Z.pos_le_pos in Hle.
  rewrite Pos2Z.inj_pow in Hgt, Hle. rewrite H in Hgt, Hle.
  rewrite Pos2Z.inj_xO in Hle.
  replace 53%Z with (Z.succ 52) in Hle by reflexivity.
  rewrite Z.pow_succ_r in Hle by lia.
  split; [|exact Hgt].
  apply (Z.mul_le_mono_pos_l _ _ 2); [lia | exact Hle].
Qed.

(** The float of a positive integer below [2^53] is the integer itself, its
    mantissa shifted to 53 binary digits. *)
Lemma binary_round_small (s : bool) (n : positive) :
  (Zpos n < 2 ^ 53)%Z ->
  exists m k, (0 <= k)%Z /\
    binary_round prec emax s n 0 = S754_finite s m (- k) /\
    Zpos m = (Zpos n * 2 ^ k)%Z /\
    Zpos (digits2_pos m) = 53%Z.
Proof.
  intros H. apply digits_small in H.
  destruct (Z.eq_dec (Zpos (digits2_pos n)) 53) as [E | E].
  - exists n, 0%Z. split; [lia|]. split; [|split; [simpl; lia | exact E]].
    apply binary_round_canonical.
    unfold bounded, canonical_mantissa. rewrite E. reflexivity.
  - destruct (53 - Zpos (digits2_pos n))%Z as [ | j | j] eqn:Ej; try lia.
    exists (Pos.iter xO n j), (Zpos j). split; [lia|]. split; [|split].
    + rewrite <- (binary_round_shift s j n 0).
      apply binary_round_canonical.
      unfold bounded, canonical_mantissa.
      rewrite digits_shl, Pos2Z.inj_add.
      replace (Zpos (digits2_pos n) + Zpos j + (0 - Zpos j))%Z
        with (Zpos (digits2_pos n)) by lia.
      unfold fexp, SpecFloat.emin, prec, emax.
      apply andb_true_iff. split; [apply Z.eqb_eq | apply Z.leb_le]; lia.
    + apply Zpos_shl.
    + rewrite digits_shl, Pos2Z.inj_add. lia.
Qed.

(** The float of a nonzero integer below [2^53]: a normal mantissa, an
    exponent that is not positive, and the value of the integer. *)
Lemma of_Z_form (z : Z) :
  small z -> z <> 0%Z ->
  exists s m k, (0 <= k)%Z /\
    of_Z z = S754_finite s m (- k) /\
    cond_Zopp s (Zpos m) = (z * 2 ^ k)%Z /\
    (2 ^ 52 <= Zpos m < 2 ^ 53)%Z.
Proof.
  unfold small. intros Hs Hz. destruct z as [ | n | n]; [congruence| |].
  - destruct (binary_round_small false n) as (m & k & Hk & Hr & Hm & Hd);
      [lia|].
    exists false, m, k. apply digits_bounds in Hd. repeat split; tauto.
  - destruct (binary_round_small true n) as (m & k & Hk & Hr & Hm & Hd);
      [lia|].
    exists true, m, k. apply digits_bounds in Hd.
    repeat split; try tauto.
    cbn [cond_Zopp]. rewrite Hm. change (Zneg n) with (- Zpos n)%Z.
    now rewrite Z.mul_opp_l.
Qed.

Lemma shl_align_value (m : positive) (e e' : Z) :
  (e' <= e)%Z ->
  Zpos (fst (shl_align m e e')) = (Zpos m * 2 ^ (e - e'))%Z.
Proof.
  intros H. unfold shl_align.
  destruct (e' - e)%Z as [ | d | d] eqn:E; try lia.
  - replace (e - e')%Z with 0%Z by lia. simpl. lia.
  - cbn [fst]. rewrite Zpos_shl. f_equal. f_equal. lia.
Qed.

Lemma cond_Zopp_mul (s : bool) (a b : Z) :
  cond_Zopp s (a * b) = (cond_Zopp s a * b)%Z.
Proof. destruct s; simpl; lia. Qed.

Lemma binary_normalize_shift (n k : Z) :
  (0 <= k)%Z ->
  binary_normalize prec emax (n * 2 ^ k) (- k) false
  = binary_normalize prec emax n 0 false.
Proof.
  intros Hk. destruct k as [ | k | k]; [| |lia].
  - now rewrite Z.mul_1_r.
  - destruct n as [ | n | n]; [reflexivity | |].
    + rewrite <- Zpos_shl. cbn [binary_normalize].
      apply (binary_round_shift false k n 0).
    + change (Zneg n) with (- Zpos n)%Z.
      rewrite Z.mul_opp_l, <- Zpos_shl. cbn [binary_normalize Z.opp].
      apply (binary_round_shift true k n 0).
Qed.

(** The aligned mantissa of an integer-valued float, with its sign. *)
Lemma aligned_value (s : bool) (m : positive) (k K z : Z) :
  (0 <= k <= K)%Z ->
  cond_Zopp s (Zpos m) = (z * 2 ^ k)%Z ->
  cond_Zopp s (Zpos (fst (shl_align m (- k) (- K)))) = (z * 2 ^ K)%Z.
Proof.
  intros Hk Hm. rewrite shl_align_value by lia.
  rewrite cond_Zopp_mul, Hm, <- Z.mul_assoc, <- Z.pow_add_r by lia.
  f_equal. f_equal. lia.
Qed.

(** Sums and differences of integers below [2^53] are those of the integers,
    rounded once. *)
Lemma add_of_Z (a b : Z) :
  small a -> small b -> add (of_Z a) (of_Z b) = of_Z (a + b).
Proof.
  intros Ha Hb.
  destruct (Z.eq_dec a 0) as [-> | Za].
  { rewrite Z.add_0_l.
    destruct (Z.eq_dec b 0) as [-> | Zb]; [reflexivity|].
    destruct (of_Z_form b Hb Zb) as (s & m & k & _ & -> & _). reflexivity. }
  destruct (of_Z_form a Ha Za) as (sa & ma & ka & Hka & Ea & Va & Na).
  destruct (Z.eq_dec b 0) as [-> | Zb].
  { rewrite Z.add_0_r, Ea. reflexivity. }
  destruct (of_Z_form b Hb Zb) as (sb & mb & kb & Hkb & Eb & Vb & Nb).
  rewrite Ea, Eb. unfold add, SFadd.
  replace (Z.min (- ka) (- kb)) with (- Z.max ka kb)%Z by lia.
  rewrite (aligned_value sa ma ka (Z.max ka kb) a) by (lia || assumption).
  rewrite (aligned_value sb mb kb (Z.max ka kb) b) by (lia || assumption).
  rewrite <- Z.mul_add_distr_r.
  apply binary_normalize_shift. lia.
Qed.

Lemma opp_involutive (x : float) : SFopp (SFopp x) = x.
Proof. destruct x as [[]|[]| |[]]; reflexivity. Qed.

Lemma of_Z_opp (z : Z) : z <> 0%Z -> of_Z (- z) = SFopp (of_Z z).
Proof.
  destruct z as [ | n | n]; [congruence | |]; intros _.
  - apply (binary_round_opp false).
  - unfold of_Z, ldexp. cbn [Z.opp binary_normalize].
    change (binary_round prec emax true n 0)
      with (binary_round prec emax (negb false) n 0).
    now rewrite (binary_round_opp false n 0), opp_involutive.
Qed.

Lemma sub_of_Z (a b : Z) :
  small a -> small b -> sub (of_Z a) (of_Z b) = of_Z (a - b).
Proof.
  intros Ha Hb.
  destruct (Z.eq_dec b 0) as [-> | Zb].
  { rewrite Z.sub_0_r.
    destruct (Z.eq_dec a 0) as [-> | Za]; [reflexivity|].
    destruct (of_Z_form a Ha Za) as (s & m & k & _ & -> & _). reflexivity. }
  destruct (of_Z_form b Hb Zb) as (sb & mb & kb & Hkb & Eb & Vb & Nb).
  destruct (Z.eq_dec a 0) as [-> | Za].
  { rewrite Z.sub_0_l, (of_Z_opp b Zb), Eb. reflexivity. }
  destruct (of_Z_form a Ha Za) as (sa & ma & ka & Hka & Ea & Va & Na).
  rewrite Ea, Eb. unfold sub, SFsub.
  replace (Z.min (- ka) (- kb)) with (- Z.max ka kb)%Z by lia.
  rewrite (aligned_value sa ma ka (Z.max ka kb) a) by (lia || assumption).
  rewrite (aligned_value sb mb kb (Z.max ka kb) b) by (lia || assumption).
  rewrite <- Z.mul_sub_distr_r.
  apply binary_normalize_shift. lia.
Qed.

(** ** Products *)

Lemma digits_large (m : positive) :
  (2 ^ 52 <= Zpos m)%Z -> (53 <= Zpos (digits2_pos m))%Z.
Proof.
  rewrite digits_size. intros H.
  pose proof (Pos.size_gt m) as Hgt. apply Pos2Z.pos_lt_pos in Hgt.
  rewrite Pos2Z.inj_pow in Hgt.
  destruct (Z.le_gt_cases 53 (Zpos (Pos.size m))) as [Hs | Hs]; [exact Hs|].
  assert (2 ^ Zpos (Pos.size m) <= 2 ^ 52)%Z
    by (apply Z.pow_le_mono_r; lia).
  lia.
Qed.

(** A mantissa of 53 digits or more is only ever shifted to the right. *)
Lemma binary_round_large (s : bool) (m : positive) (e : Z) :
  (53 <= Zpos (digits2_pos m))%Z ->
  binary_round prec emax s m e
  = binary_round_aux prec emax s (Zpos m) e loc_Exact.
Proof.
  intros H. unfold binary_round, shl_align.
  destruct (fexp prec emax (Zpos (digits2_pos m) + e) - e)%Z eqn:E;
    try reflexivity.
  unfold fexp, SpecFloat.emin, prec, emax in E. lia.
Qed.

Lemma binary_normalize_signed (s : bool) (m : positive) (e : Z) :
  binary_normalize prec emax (cond_Zopp s (Zpos m)) e false
  = binary_round prec emax s m e.
Proof. destruct s; reflexivity. Qed.

Lemma cond_Zopp_xorb (s t : bool) (a b : Z) :
  cond_Zopp (xorb s t) (a * b) = (cond_Zopp s a * cond_Zopp t b)%Z.
Proof. destruct s, t; simpl; lia. Qed.

(** The sign bit of the float of a nonzero integer. *)
Lemma cond_Zopp_sign (s : bool) (m : positive) (z k : Z) :
  (0 <= k)%Z -> cond_Zopp s (Zpos m) = (z * 2 ^ k)%Z ->
  if s then (z < 0)%Z else (0 < z)%Z.
Proof.
  intros Hk H. assert (0 < 2 ^ k)%Z by (apply Z.pow_pos_nonneg; lia).
  destruct s; cbn [cond_Zopp] in H; nia.
Qed.

Lemma mul_of_Z (a b : Z) :
  small a -> small b -> feq (mul (of_Z a) (of_Z b)) (of_Z (a * b)).
Proof.
  intros Ha Hb.
  destruct (Z.eq_dec a 0) as [-> | Za].
  { right. split; [|reflexivity].
    destruct (Z.eq_dec b 0) as [-> | Zb]; [reflexivity|].
    destruct (of_Z_form b Hb Zb) as (s & m & k & _ & -> & _). reflexivity. }
  destruct (of_Z_form a Ha Za) as (sa & ma & ka & Hka & Ea & Va & Na).
  destruct (Z.eq_dec b 0) as [-> | Zb].
  { right. rewrite Z.mul_0_r, Ea. split; reflexivity. }
  destruct (of_Z_form b Hb Zb) as (sb & mb & kb & Hkb & Eb & Vb & Nb).
  left. rewrite Ea, Eb. unfold mul, SFmul.
  rewrite <- binary_round_large.
  - rewrite <- binary_normalize_signed, Pos2Z.inj_mul, cond_Zopp_xorb, Va, Vb.
    replace (a * 2 ^ ka * (b * 2 ^ kb))%Z with (a * b * 2 ^ (ka + kb))%Z
      by (rewrite Z.pow_add_r by lia; ring).
    replace (- ka + - kb)%Z with (- (ka + kb))%Z by lia.
    apply binary_normalize_shift. lia.
  - apply digits_large. rewrite Pos2Z.inj_mul.
    assert (0 < 2 ^ 52)%Z by (apply Z.pow_pos_nonneg; lia). nia.
Qed.

(** ** Comparison *)

Lemma compare_opp (x y : float) :
  SFcompare (SFopp x) (SFopp y) = SFcompare y x.
Proof.
  destruct x as [sx | sx | | sx mx ex], y as [sy | sy | | sy my ey];
    simpl; try reflexivity;
    try (destruct sx; reflexivity); try (destruct sy; reflexivity);
    try (destruct sx, sy; reflexivity).
  pose proof (Pos.compare_cont_antisym mx my Eq) as H; simpl in H.
  destruct sx, sy; simpl; try reflexivity;
    rewrite (Z.compare_antisym ex ey);
    destruct (ex ?= ey)%Z; simpl; rewrite <- ?H, ?CompOpp_involutive;
    reflexivity.
Qed.

Lemma pos_compare_cont (p q : positive) :
  Pos.compare_cont Eq p q = (Zpos p ?= Zpos q)%Z.
Proof. reflexivity. Qed.

Lemma mul_compare_r (a b x : Z) :
  (0 < x)%Z -> (a * x ?= b * x)%Z = (a ?= b)%Z.
Proof.
  intros Hx. destruct (Z.compare_spec a b) as [E | E | E].
  - subst. apply Z.compare_refl.
  - apply Z.compare_lt_iff. nia.
  - apply Z.compare_gt_iff. nia.
Qed.

(** Two positive normal floats are ordered by exponent, then mantissa. *)
Lemma compare_normal (ma mb : positive) (ka kb a b : Z) :
  (0 <= ka)%Z -> (0 <= kb)%Z ->
  Zpos ma = (a * 2 ^ ka)%Z -> Zpos mb = (b * 2 ^ kb)%Z ->
  (2 ^ 52 <= Zpos ma < 2 ^ 53)%Z -> (2 ^ 52 <= Zpos mb < 2 ^ 53)%Z ->
  SFcompare (S754_finite false ma (- ka)) (S754_finite false mb (- kb))
  = Some (a ?= b)%Z.
Proof.
  intros Hka Hkb Va Vb Na Nb. cbn [SFcompare]. f_equal.
  assert (Hp : (0 < 2 ^ 52)%Z) by (apply Z.pow_pos_nonneg; lia).
  assert (H53 : (2 ^ 53 = 2 * 2 ^ 52)%Z)
    by (replace 53%Z with (Z.succ 52) by reflexivity;
        apply Z.pow_succ_r; lia).
  destruct (Z.compare_spec (- ka) (- kb)) as [E | E | E].
  - assert (ka = kb) by lia. subst kb.
    rewrite pos_compare_cont, Va, Vb.
    apply mul_compare_r. apply Z.pow_pos_nonneg; lia.
  - (* the exponent of [a] is smaller *)
    symmetry. apply Z.compare_lt_iff.
    assert (Hd : (2 ^ ka = 2 ^ kb * 2 ^ (ka - kb))%Z)
      by (rewrite <- Z.pow_add_r by lia; f_equal; lia).
    assert (H2 : (2 <= 2 ^ (ka - kb))%Z)
      by (change 2%Z with (2 ^ 1)%Z at 1; apply Z.pow_le_mono_r; lia).
    assert (0 < 2 ^ kb)%Z by (apply Z.pow_pos_nonneg; lia).
    nia.
  - symmetry. apply Z.compare_gt_iff.
    assert (Hd : (2 ^ kb = 2 ^ ka * 2 ^ (kb - ka))%Z)
      by (rewrite <- Z.pow_add_r by lia; f_equal; lia).
    assert (H2 : (2 <= 2 ^ (kb - ka))%Z)
      by (change 2%Z with (2 ^ 1)%Z at 1; apply Z.pow_le_mono_r; lia).
    assert (0 < 2 ^ ka)%Z by (apply Z.pow_pos_nonneg; lia).
    nia.
Qed.


Lemma compare_of_Z (a b : Z) :
  small a -> small b -> SFcompare (of_Z a) (of_Z b) = Some (a ?= b)%Z.
Proof.
  intros Ha Hb.
  destruct (Z.eq_dec a 0) as [-> | Za].
  { destruct (Z.eq_dec b 0) as [-> | Zb]; [reflexivity|].
    destruct (of_Z_form b Hb Zb) as (s & m & k & Hk & -> & V & _).
    pose proof (cond_Zopp_sign s m b k Hk V) as Hs.
    destruct s; cbn [SFcompare of_Z ldexp binary_normalize]; f_equal;
      symmetry; [apply Z.compare_gt_iff | apply Z.compare_lt_iff]; lia. }
  destruct (of_Z_form a Ha Za) as (sa & ma & ka & Hka & Ea & Va & Na).
  pose proof (cond_Zopp_sign sa ma a ka Hka Va) as Hsa.
  destruct (Z.eq_dec b 0) as [-> | Zb].
  { rewrite Ea. destruct sa; cbn [SFcompare of_Z ldexp binary_normalize];
      f_equal; symmetry;
      [apply Z.compare_lt_iff | apply Z.compare_gt_iff]; lia. }
  destruct (of_Z_form b Hb Zb) as (sb & mb & kb & Hkb & Eb & Vb & Nb).
  pose proof (cond_Zopp_sign sb mb b kb Hkb Vb) as Hsb.
  rewrite Ea, Eb. destruct sa, sb; cbn [cond_Zopp] in Va, Vb.
  - change (S754_finite true ma (- ka))
      with (SFopp (S754_finite false ma (- ka))).
    change (S754_finite true mb (- kb))
      with (SFopp (S754_finite false mb (- kb))).
    rewrite compare_opp.
    rewrite (compare_normal mb ma kb ka (- b) (- a)); try assumption;
      try lia.
    now rewrite Z.compare_opp.
  - cbn [SFcompare]. f_equal. symmetry. apply Z.compare_lt_iff. lia.
  - cbn [SFcompare]. f_equal. symmetry. apply Z.compare_gt_iff. lia.
  - now apply compare_normal.
Qed.

Lemma eqb_of_Z (a b : Z) :
  small a -> small b -> eqb (of_Z a) (of_Z b) = (a =? b)%Z.
Proof.
  intros Ha Hb. unfold eqb, SFeqb.
  rewrite (compare_of_Z a b Ha Hb).
  destruct (Z.compare_spec a b); destruct (Z.eqb_spec a b);
    reflexivity || lia.
Qed.

Lemma ltb_of_Z (a b : Z) :
  small a -> small b -> ltb (of_Z a) (of_Z b) = (a <? b)%Z.
Proof.
  intros Ha Hb. unfold ltb, SFltb, Z.ltb.
  rewrite (compare_of_Z a b Ha Hb). now destruct (a ?= b)%Z.
Qed.

Lemma leb_of_Z (a b : Z) :
  small a -> small b -> leb (of_Z a) (of_Z b) = (a <=? b)%Z.
Proof.
  intros Ha Hb. unfold leb, SFleb, Z.leb.
  rewrite (compare_of_Z a b Ha Hb). now destruct (a ?= b)%Z.
Qed.

Lemma max_of_Z (a b : Z) :
  small a -> small b -> max (of_Z a) (of_Z b) = of_Z (Z.max a b).
Proof.
  intros Ha Hb. unfold max, gtb. fold (ltb (of_Z a) (of_Z b)).
  rewrite (ltb_of_Z a b Ha Hb).
  destruct (Z.ltb_spec a b); f_equal; lia.
Qed.

Lemma min_of_Z (a b : Z) :
  small a -> small b -> min (of_Z a) (of_Z b) = of_Z (Z.min a b).
Proof.
  intros Ha Hb. unfold min.
  rewrite (ltb_of_Z b a Hb Ha).
  destruct (Z.ltb_spec b a); f_equal; lia.
Qed.

End Exact.

(** * The geometry kernel on edges that do not overflow *)

Module Geometry.
Import PyFloat PyFloatFacts.

Lemma finite_edge_inv p q :
  finite_edge p q = true ->
  (is_finite (fst p) = true /\ is_finite (snd p) = true) /\
  (is_finite (fst q) = true /\ is_finite (snd q) = true) /\
  is_finite (sub (fst q) (fst p)) = true /\
  is_finite (sub (snd q) (snd p)) = true.
Proof.
  unfold finite_edge, finite_point.
  rewrite !andb_true_iff. tauto.
Qed.

Lemma orientation_zero p q r :
  is_zero (orientation_val p q r) = true -> orientation p q r = 0%Z.
Proof.
  intros H. unfold orientation. now rewrite (eqb_zero _ H).
Qed.

(** The end point of an edge is collinear with the edge. *)
Lemma orientation_end p q : finite_edge p q = true -> orientation p q q = 0%Z.
Proof.
  intros H. apply finite_edge_inv in H.
  destruct H as [_ [[Hqx Hqy] [Hdx Hdy]]].
  apply orientation_zero. unfold orientation_val.
  rewrite (sub_diag _ Hqx), (sub_diag _ Hqy).
  apply sub_zero_zero; now apply mul_zero_r.
Qed.

(** So is its starting point, when the cross product does not overflow. *)
Lemma orientation_start p q : tame_edge p q = true -> orientation p q p = 0%Z.
Proof.
  unfold tame_edge, finite_cross. rewrite andb_true_iff. intros [H Hc].
  apply orientation_zero. unfold orientation_val.
  set (a := sub (snd q) (snd p)) in *. set (b := sub (fst q) (fst p)) in *.
  assert (HX : feq (mul a (sub (fst p) (fst q))) (SFopp (mul a b))).
  { rewrite <- mul_opp_r. apply mul_feq_r, sub_antisym. }
  assert (HY : feq (mul b (sub (snd p) (snd q))) (SFopp (mul a b))).
  { rewrite (mul_comm a b), <- mul_opp_r. apply mul_feq_r, sub_antisym. }
  apply sub_feq_zero.
  - eapply feq_trans; [exact HX | apply feq_sym, HY].
  - rewrite (feq_finite _ _ HX), opp_finite. exact Hc.
Qed.

Lemma on_segment_end p q :
  finite_point p = true -> finite_point q = true -> on_segment p q q = true.
Proof.
  unfold finite_point. rewrite !andb_true_iff. intros [Hpx Hpy] [Hqx Hqy].
  apply finite_not_nan in Hpx, Hpy, Hqx, Hqy.
  unfold on_segment.
  now rewrite !leb_max_r, !geb_min_r.
Qed.

Lemma on_segment_start p q :
  finite_point p = true -> finite_point q = true -> on_segment p p q = true.
Proof.
  unfold finite_point. rewrite !andb_true_iff. intros [Hpx Hpy] [Hqx Hqy].
  apply finite_not_nan in Hpx, Hpy, Hqx, Hqy.
  unfold on_segment.
  now rewrite !leb_max_l, !geb_min_l.
Qed.

Lemma lies_on_end p q : finite_edge p q = true -> lies_on p q q = true.
Proof.
  intros H. unfold lies_on. rewrite (orientation_end _ _ H).
  apply finite_edge_inv in H. destruct H as [[? ?] [[? ?] _]].
  apply on_segment_end; unfold finite_point; apply andb_true_iff; auto.
Qed.

Lemma lies_on_start p q : tame_edge p q = true -> lies_on p q p = true.
Proof.
  intros H. unfold lies_on. rewrite (orientation_start _ _ H).
  unfold tame_edge in H. apply andb_true_iff in H. destruct H as [H _].
  apply finite_edge_inv in H. destruct H as [[? ?] [[? ?] _]].
  apply on_segment_start; unfold finite_point; apply andb_true_iff; auto.
Qed.

(** [do_intersect] is the proper crossing test or one of the four collinear
    branches. *)
Lemma do_intersect_unfold p1 q1 p2 q2 :
  do_intersect p1 q1 p2 q2 =
  (negb (orientation p1 q1 p2 =? orientation p1 q1 q2)%Z &&
   negb (orientation p2 q2 p1 =? orientation p2 q2 q1)%Z)
  || collinear_contact p1 q1 p2 q2.
Proof.
  unfold do_intersect, collinear_contact, lies_on.
  destruct (negb _ && negb _); [reflexivity|].
  destruct ((orientation p1 q1 p2 =? 0)%Z && _); [reflexivity|].
  destruct ((orientation p1 q1 q2 =? 0)%Z && _); [reflexivity|].
  destruct ((orientation p2 q2 p1 =? 0)%Z && _); [reflexivity|].
  destruct ((orientation p2 q2 q1 =? 0)%Z && _); reflexivity.
Qed.

Lemma collinear_contact_intersect p1 q1 p2 q2 :
  collinear_contact p1 q1 p2 q2 = true -> do_intersect p1 q1 p2 q2 = true.
Proof.
  intros H. rewrite do_intersect_unfold, H. apply orb_true_r.
Qed.

Lemma share_endpoint_contact p1 q1 p2 q2 :
  tame_edge p1 q1 = true -> tame_edge p2 q2 = true ->
  share_endpoint p1 q1 p2 q2 -> collinear_contact p1 q1 p2 q2 = true.
Proof.
  intros H1 H2 Hs. unfold collinear_contact.
  assert (E1 : finite_edge p1 q1 = true)
    by (unfold tame_edge in H1; apply andb_true_iff in H1; tauto).
  assert (E2 : finite_edge p2 q2 = true)
    by (unfold tame_edge in H2; apply andb_true_iff in H2; tauto).
  destruct Hs as [<- | [-> | [<- | <-]]].
  - rewrite (lies_on_start _ _ H1). reflexivity.
  - rewrite (lies_on_end _ _ E2). rewrite !orb_true_r. reflexivity.
  - rewrite (lies_on_end _ _ E1). reflexivity.
  - rewrite (lies_on_end _ _ E1). rewrite !orb_true_r. reflexivity.
Qed.

(** Two consecutive edges: the second starts where the first ends. *)
Lemma do_intersect_consecutive p q r :
  finite_edge p q = true -> do_intersect p q q r = true.
Proof.
  intros H. apply collinear_contact_intersect.
  unfold collinear_contact. now rewrite (lies_on_end _ _ H).
Qed.

(** ** The classification of the cross product *)

Lemma orientation_is_code p q r :
  orientation p q r = orientation_code (orientation_val p q r).
Proof. reflexivity. Qed.

Lemma orientation_code_opp (v : float) :
  (orientation_code v = 0%Z <-> orientation_code (SFopp v) = 0%Z) /\
  (orientation_code v = 1%Z -> orientation_code (SFopp v) = 2%Z) /\
  (orientation_code (SFopp v) = 1%Z -> orientation_code v = 2%Z).
Proof.
  destruct v as [[] | [] | | [] m e]; cbn; repeat split; congruence.
Qed.

Lemma orientation_code_feq (v w : float) :
  feq v w -> orientation_code v = orientation_code w.
Proof.
  intros H. unfold orientation_code.
  now rewrite (eqb_feq _ _ zero H), (gtb_feq _ _ zero H).
Qed.

Lemma mul_opp_opp (a b : float) : mul (SFopp a) (SFopp b) = mul a b.
Proof.
  rewrite mul_opp_r, (mul_comm (SFopp a) b), mul_opp_r, (mul_comm b a).
  apply Exact.opp_involutive.
Qed.

(** Read in the other direction, the cross product changes sign. *)
Lemma orientation_val_reverse p q r :
  feq (orientation_val r q p) (SFopp (orientation_val p q r)).
Proof.
  unfold orientation_val.
  set (a := sub (snd q) (snd p)). set (c := sub (fst r) (fst q)).
  set (b := sub (fst q) (fst p)). set (d := sub (snd r) (snd q)).
  apply feq_trans with (sub (mul b d) (mul a c)); [|apply sub_antisym].
  apply sub_feq.
  - rewrite (mul_comm b d), <- (mul_opp_opp d b).
    apply mul_feq; apply sub_antisym.
  - rewrite (mul_comm a c), <- (mul_opp_opp c a).
    apply mul_feq; apply sub_antisym.
Qed.

(** ** NaN coordinates *)

Lemma sub_nan_l (x y : float) : is_nan x = true -> is_nan (sub x y) = true.
Proof. destruct x; simpl; try congruence; intros _; reflexivity. Qed.

Lemma sub_nan_r (x y : float) : is_nan y = true -> is_nan (sub x y) = true.
Proof. destruct y; simpl; try congruence. intros _. now destruct x. Qed.

Lemma mul_nan_l (x y : float) : is_nan x = true -> is_nan (mul x y) = true.
Proof. destruct x; simpl; try congruence; intros _; reflexivity. Qed.

Lemma mul_nan_r (x y : float) : is_nan y = true -> is_nan (mul x y) = true.
Proof. destruct y; simpl; try congruence. intros _. now destruct x. Qed.

Lemma orientation_code_nan (v : float) :
  is_nan v = true -> orientation_code v = 2%Z.
Proof. destruct v; simpl; try congruence; intros _; reflexivity. Qed.

Lemma orientation_val_nan p q r :
  has_nan p || has_nan q || has_nan r = true ->
  is_nan (orientation_val p q r) = true.
Proof.
  unfold has_nan, orientation_val. rewrite !orb_true_iff.
  intros [[[H | H] | [H | H]] | [H | H]].
  - apply sub_nan_r, mul_nan_l, sub_nan_r, H.
  - apply sub_nan_l, mul_nan_l, sub_nan_r, H.
  - apply sub_nan_r, mul_nan_l, sub_nan_l, H.
  - apply sub_nan_l, mul_nan_l, sub_nan_l, H.
  - apply sub_nan_l, mul_nan_r, sub_nan_l, H.
  - apply sub_nan_r, mul_nan_r, sub_nan_l, H.
Qed.

(** ** Two of the three points coincide *)

Lemma orientation_twice_start p q :
  finite_edge p q = true -> orientation p p q = 0%Z.
Proof.
  intros H. apply finite_edge_inv in H.
  destruct H as [[Hpx Hpy] [_ [Hdx Hdy]]].
  apply orientation_zero. unfold orientation_val.
  rewrite (sub_diag _ Hpx), (sub_diag _ Hpy).
  apply sub_zero_zero; rewrite mul_comm; now apply mul_zero_r.
Qed.

(** ** The two segments in the other order *)

Lemma collinear_contact_sym p1 q1 p2 q2 :
  collinear_contact p2 q2 p1 q1 = collinear_contact p1 q1 p2 q2.
Proof.
  unfold collinear_contact.
  destruct (lies_on p1 q1 p2), (lies_on p1 q1 q2),
    (lies_on p2 q2 p1), (lies_on p2 q2 q1); reflexivity.
Qed.

(** ** Segments with a NaN end point *)

Lemma orientation_nan_l p q r :
  has_nan p || has_nan q = true -> orientation p q r = 2%Z.
Proof.
  intros H. rewrite orientation_is_code.
  apply orientation_code_nan, orientation_val_nan. now rewrite H.
Qed.

Lemma orientation_nan_r p q r : has_nan r = true -> orientation p q r = 2%Z.
Proof.
  intros H. rewrite orientation_is_code.
  apply orientation_code_nan, orientation_val_nan.
  rewrite H. apply orb_true_r.
Qed.

Lemma do_intersect_nan p1 q1 p2 q2 :
  has_nan p1 || has_nan q1 = true -> has_nan p2 || has_nan q2 = true ->
  do_intersect p1 q1 p2 q2 = false.
Proof.
  intros H1 H2. unfold do_intersect.
  rewrite (orientation_nan_l p1 q1 p2 H1), (orientation_nan_l p1 q1 q2 H1).
  rewrite (orientation_nan_l p2 q2 p1 H2), (orientation_nan_l p2 q2 q1 H2).
  reflexivity.
Qed.

(** ** The direction of the segment in [on_segment] *)

Lemma compare_eq_feq (a b : float) : SFcompare a b = Some Eq -> feq a b.
Proof.
  destruct a as [sa | sa | | sa ma ea], b as [sb | sb | | sb mb eb];
    simpl; try discriminate;
    try (destruct sa; discriminate); try (destruct sb; discriminate).
  - intros _. right. split; reflexivity.
  - destruct sa, sb; try discriminate; intros _; now left.
  - destruct sa, sb; try discriminate;
      destruct (Z.compare_spec ea eb) as [E | E | E]; try discriminate;
      intros H; injection H as H; left; subst eb; f_equal;
      [apply (f_equal CompOpp) in H; simpl in H;
       rewrite CompOpp_involutive in H|];
      now apply Pos.compare_eq.
Qed.

Lemma compare_feq_r (x y z : float) :
  feq x y -> SFcompare z x = SFcompare z y.
Proof.
  intros H. rewrite (compare_antisym x z), (compare_antisym y z).
  now rewrite (compare_feq _ _ z H).
Qed.

Lemma max_swap (a b : float) :
  is_nan a = false -> is_nan b = false -> feq (max b a) (max a b).
Proof.
  intros Ha Hb. unfold max, gtb, SFltb.
  rewrite (compare_antisym a b).
  destruct (compare_not_nan a b Ha Hb) as [c E]. rewrite E.
  destruct c; simpl; try apply feq_refl.
  apply feq_sym. now apply compare_eq_feq.
Qed.

Lemma min_swap (a b : float) :
  is_nan a = false -> is_nan b = false -> feq (min b a) (min a b).
Proof.
  intros Ha Hb. unfold min, ltb, SFltb.
  rewrite (compare_antisym a b).
  destruct (compare_not_nan a b Ha Hb) as [c E]. rewrite E.
  destruct c; simpl; try apply feq_refl.
  apply feq_sym. now apply compare_eq_feq.
Qed.

Lemma leb_feq_r (x y z : float) : feq x y -> leb z x = leb z y.
Proof. intros H. unfold leb, SFleb. now rewrite (compare_feq_r _ _ z H). Qed.

Lemma leb_feq_l (x y z : float) : feq x y -> leb x z = leb y z.
Proof. intros H. unfold leb, SFleb. now rewrite (compare_feq _ _ z H). Qed.

End Geometry.

(** * The kernel on integer coordinates

    On points with integer coordinates below [2^25] no operation of the
    kernel rounds, and the tests are those of exact integer geometry. *)

Module Grid.
Import PyFloat PyFloatFacts Exact Geometry.

Ltac bounds :=
  unfold small, in_grid in *;
  change (2 ^ 53)%Z with 9007199254740992%Z;
  change (2 ^ 25)%Z with 33554432%Z in *;
  nia.

Lemma orientation_val_grid (p q r : zpoint) :
  in_grid p -> in_grid q -> in_grid r ->
  feq (orientation_val (float_point p) (float_point q) (float_point r))
      (of_Z (cross p q r)).
Proof.
  intros Hp Hq Hr. unfold orientation_val, float_point, point_of_Z, cross.
  cbn [fst snd].
  rewrite (sub_of_Z (snd q) (snd p)), (sub_of_Z (fst r) (fst q)),
    (sub_of_Z (fst q) (fst p)), (sub_of_Z (snd r) (snd q)) by bounds.
  rewrite <- (sub_of_Z ((snd q - snd p) * (fst r - fst q))
                       ((fst q - fst p) * (snd r - snd q))) by bounds.
  apply sub_feq; apply mul_of_Z; bounds.
Qed.

Lemma orientation_grid (p q r : zpoint) :
  in_grid p -> in_grid q -> in_grid r ->
  orientation (float_point p) (float_point q) (float_point r)
  = orientation_Z p q r.
Proof.
  intros Hp Hq Hr. unfold orientation, orientation_Z.
  pose proof (orientation_val_grid p q r Hp Hq Hr) as H.
  rewrite (eqb_feq _ _ zero H), (gtb_feq _ _ zero H).
  change zero with (of_Z 0). unfold gtb. fold (ltb (of_Z 0) (of_Z (cross p q r))).
  assert (Hc : small (cross p q r)) by (unfold cross; bounds).
  assert (H0 : small 0) by bounds.
  now rewrite (eqb_of_Z _ _ Hc H0), (ltb_of_Z _ _ H0 Hc).
Qed.

Lemma on_segment_grid (p q r : zpoint) :
  in_grid p -> in_grid q -> in_grid r ->
  on_segment (float_point p) (float_point q) (float_point r)
  = on_segment_Z p q r.
Proof.
  intros Hp Hq Hr. unfold on_segment, on_segment_Z, float_point, point_of_Z.
  cbn [fst snd]. unfold geb.
  fold (leb (min (of_Z (fst p)) (of_Z (fst r))) (of_Z (fst q))).
  fold (leb (min (of_Z (snd p)) (of_Z (snd r))) (of_Z (snd q))).
  rewrite !max_of_Z, !min_of_Z by bounds.
  rewrite !leb_of_Z by bounds. reflexivity.
Qed.

Lemma lies_on_grid (p q r : zpoint) :
  in_grid p -> in_grid q -> in_grid r ->
  lies_on (float_point p) (float_point q) (float_point r) = lies_on_Z p q r.
Proof.
  intros Hp Hq Hr. unfold lies_on, lies_on_Z.
  rewrite orientation_grid, on_segment_grid by assumption.
  f_equal. unfold orientation_Z.
  destruct (cross p q r =? 0)%Z; [reflexivity|].
  destruct (0 <? cross p q r)%Z; reflexivity.
Qed.

Lemma collinear_contact_grid (p1 q1 p2 q2 : zpoint) :
  in_grid p1 -> in_grid q1 -> in_grid p2 -> in_grid q2 ->
  collinear_contact (float_point p1) (float_point q1)
                    (float_point p2) (float_point q2)
  = contact_Z p1 q1 p2 q2.
Proof.
  intros H1 H2 H3 H4. unfold collinear_contact, contact_Z.
  now rewrite !lies_on_grid by assumption.
Qed.

(** Segments on the grid of which one has an end point on the other
    intersect: this covers touching at an end point and overlap along a
    common line. *)
Lemma contact_grid_intersect (p1 q1 p2 q2 : zpoint) :
  in_grid p1 -> in_grid q1 -> in_grid p2 -> in_grid q2 ->
  contact_Z p1 q1 p2 q2 = true ->
  do_intersect (float_point p1) (float_point q1)
               (float_point p2) (float_point q2) = true.
Proof.
  intros H1 H2 H3 H4 Hc. apply collinear_contact_intersect.
  now rewrite collinear_contact_grid.
Qed.

(** Every edge between grid points is finite. *)
Lemma of_Z_finite (z : Z) : small z -> is_finite (of_Z z) = true.
Proof.
  intros Hz. destruct (Z.eq_dec z 0) as [-> | Hn]; [reflexivity|].
  destruct (of_Z_form z Hz Hn) as (s & m & k & _ & -> & _). reflexivity.
Qed.

Lemma finite_edge_grid (p q : zpoint) :
  in_grid p -> in_grid q ->
  finite_edge (float_point p) (float_point q) = true.
Proof.
  intros Hp Hq. unfold finite_edge, finite_point, float_point, point_of_Z.
  cbn [fst snd]. rewrite !sub_of_Z by bounds.
  rewrite !of_Z_finite by bounds. reflexivity.
Qed.

(** ** The intersection test on the grid *)

Lemma cross_cyclic (p q r : zpoint) : cross q r p = cross p q r.
Proof. unfold cross. ring. Qed.

Lemma cross_reverse (p q r : zpoint) : cross r q p = (- cross p q r)%Z.
Proof. unfold cross. ring. Qed.

Lemma cross_translate (t p q r : zpoint) :
  cross (translate_Z t p) (translate_Z t q) (translate_Z t r) = cross p q r.
Proof. unfold cross, translate_Z. cbn [fst snd]. ring. Qed.

Lemma on_segment_Z_translate (t p q r : zpoint) :
  on_segment_Z (translate_Z t p) (translate_Z t q) (translate_Z t r)
  = on_segment_Z p q r.
Proof.
  unfold on_segment_Z, translate_Z. cbn [fst snd].
  repeat (f_equal; try (apply eq_true_iff_eq; rewrite !Z.leb_le; lia)).
Qed.

Lemma orientation_Z_translate (t p q r : zpoint) :
  orientation_Z (translate_Z t p) (translate_Z t q) (translate_Z t r)
  = orientation_Z p q r.
Proof. unfold orientation_Z. now rewrite cross_translate. Qed.

Lemma do_intersect_grid (p1 q1 p2 q2 : zpoint) :
  in_grid p1 -> in_grid q1 -> in_grid p2 -> in_grid q2 ->
  do_intersect (float_point p1) (float_point q1)
               (float_point p2) (float_point q2)
  = do_intersect_Z p1 q1 p2 q2.
Proof.
  intros H1 H2 H3 H4. unfold do_intersect_Z.
  rewrite do_intersect_unfold, collinear_contact_grid by assumption.
  now rewrite !orientation_grid by assumption.
Qed.

Lemma do_intersect_Z_translate (t p1 q1 p2 q2 : zpoint) :
  do_intersect_Z (translate_Z t p1) (translate_Z t q1)
                 (translate_Z t p2) (translate_Z t q2)
  = do_intersect_Z p1 q1 p2 q2.
Proof.
  unfold do_intersect_Z, contact_Z, lies_on_Z.
  now rewrite !orientation_Z_translate, !cross_translate,
    !on_segment_Z_translate.
Qed.

(** A translation of a float point with integer coordinates is the float
    point of the translated integers. *)
Lemma translate_float_point (t p : zpoint) :
  in_grid t -> in_grid p ->
  translate (float_point t) (float_point p) = float_point (translate_Z t p).
Proof.
  intros Ht Hp. unfold translate, float_point, point_of_Z, translate_Z.
  cbn [fst snd]. now rewrite !add_of_Z by bounds.
Qed.

Lemma translate_in_grid (t p : zpoint) :
  in_half_grid t -> in_half_grid p -> in_grid (translate_Z t p).
Proof.
  unfold in_half_grid, in_grid, translate_Z. cbn [fst snd].
  change (2 ^ 25)%Z with 33554432%Z. change (2 ^ 24)%Z with 16777216%Z. lia.
Qed.

Lemma half_grid_in_grid (p : zpoint) : in_half_grid p -> in_grid p.
Proof.
  unfold in_half_grid, in_grid.
  change (2 ^ 25)%Z with 33554432%Z. change (2 ^ 24)%Z with 16777216%Z. lia.
Qed.

End Grid.

(** * The polygon validator *)

Module Polygon.
Import PyFloat PyFloatFacts Geometry.

Lemma range_cons a b : (a < b)%nat -> range a b = a :: range (S a) b.
Proof.
  intros H. unfold range.
  replace (b - a)%nat with (S (b - S a)) by lia. reflexivity.
Qed.

(** Every index of the scan is inside the list. *)
Lemma scan_indices_in_range (l : list point) i j :
  In i (range 0 (length l - 2)) -> In j (range (i + 1) (length l - 1)) ->
  (i + 1 < length l /\ j + 1 < length l)%nat.
Proof.
  unfold range. rewrite !in_seq. lia.
Qed.

(** The scan starts with the pair of the first two edges. *)
Lemma scan_first_pair l :
  (4 <= length l)%nat ->
  do_intersect (getitem l 0) (getitem l 1) (getitem l 1) (getitem l 2) = true ->
  has_self_intersections l = true.
Proof.
  intros Hn H. unfold has_self_intersections.
  rewrite (range_cons 0) by lia. cbn [existsb].
  apply orb_true_iff. left.
  change (0 + 1)%nat with 1%nat.
  rewrite (range_cons 1) by lia. cbn [existsb].
  apply orb_true_iff. left. exact H.
Qed.

Lemma scan_finite_first_edge l :
  (4 <= length l)%nat ->
  finite_edge (getitem l 0) (getitem l 1) = true ->
  has_self_intersections l = true.
Proof.
  intros Hn H. apply scan_first_pair; [exact Hn|].
  now apply do_intersect_consecutive.
Qed.

(** [validate_polygon] step by step. *)
Lemma validate_polygon_short l :
  (length l < 4)%nat -> validate_polygon l = Raise TooFewPoints.
Proof.
  intros H. unfold validate_polygon, new_PolygonDescription, validate_coordinates.
  apply Nat.ltb_lt in H. now rewrite H.
Qed.

Lemma validate_polygon_long l :
  (4 <= length l)%nat ->
  validate_polygon l =
  match first_last l with
  | None => Raise IndexError
  | Some (p, q) =>
      if negb (tuple_eqb p q) then Raise NotClosed
      else if negb (length (set_of (removelast l)) =? length (removelast l))%nat
           then Raise DuplicateVertex
      else if has_self_intersections (map xy l) then Raise SelfIntersecting
      else Ok l
  end.
Proof.
  intros H. unfold validate_polygon, new_PolygonDescription, validate_coordinates.
  apply Nat.ltb_ge in H. rewrite H. cbn [bind].
  unfold check_polygon_validity, first_last. cbn [coordinates].
  destruct l as [ | p l']; [reflexivity|].
  destruct (negb (tuple_eqb p (last (p :: l') p))); [reflexivity|].
  destruct (negb _); [reflexivity|].
  destruct (has_self_intersections _); reflexivity.
Qed.

(** ** The set of a list with a repeated point is shorter than the list *)

Lemma set_add_length s p : (length (set_add s p) <= S (length s))%nat.
Proof.
  unfold set_add. destruct (existsb _ s); [lia|].
  rewrite length_app. simpl. lia.
Qed.

Lemma set_add_known s p :
  existsb (fun k => tuple_eqb k p) s = true -> set_add s p = s.
Proof. intros H. unfold set_add. now rewrite H. Qed.

Lemma fold_set_add_length l s :
  (length (fold_left set_add l s) <= length s + length l)%nat.
Proof.
  revert s. induction l as [ | a l IH]; intros s; simpl; [lia|].
  specialize (IH (set_add s a)). pose proof (set_add_length s a). lia.
Qed.

Lemma set_add_keeps s p x : In x s -> In x (set_add s p).
Proof.
  intros H. unfold set_add. destruct (existsb _ s); [exact H|].
  apply in_or_app. now left.
Qed.

Lemma fold_set_add_keeps l s x : In x s -> In x (fold_left set_add l s).
Proof.
  revert s. induction l as [ | a l IH]; intros s H; simpl; [exact H|].
  apply IH. now apply set_add_keeps.
Qed.

(** After [x] went through [set_add], the set holds [x] or did not grow. *)
Lemma set_add_holds s x :
  In x (set_add s x) \/ set_add s x = s.
Proof.
  unfold set_add. destruct (existsb _ s); [now right|].
  left. apply in_or_app. right. now left.
Qed.

Lemma set_of_repeated l :
  repeated_point l -> (length (set_of l) < length l)%nat.
Proof.
  intros (l1 & x & l2 & y & l3 & -> & Hxy).
  unfold set_of. rewrite fold_left_app. cbn [fold_left].
  rewrite fold_left_app. cbn [fold_left].
  pose proof (fold_set_add_length l1 []) as H1.
  change (length (@nil vertex) + length l1)%nat with (length l1) in H1.
  set (s1 := fold_left set_add l1 []) in *.
  rewrite !length_app. cbn [length]. rewrite !length_app. cbn [length].
  destruct (set_add_holds s1 x) as [Hin | Hskip].
  - set (s2 := set_add s1 x) in *.
    pose proof (set_add_length s1 x) as H2. fold s2 in H2.
    set (s3 := fold_left set_add l2 s2).
    pose proof (fold_set_add_length l2 s2) as H3. fold s3 in H3.
    assert (Hy : existsb (fun k => tuple_eqb k y) s3 = true).
    { apply existsb_exists. exists x. split; [|exact Hxy].
      now apply fold_set_add_keeps. }
    rewrite (set_add_known _ _ Hy).
    pose proof (fold_set_add_length l3 s3). lia.
  - rewrite Hskip.
    set (s3 := fold_left set_add l2 s1).
    pose proof (fold_set_add_length l2 s1) as H3. fold s3 in H3.
    pose proof (set_add_length s3 y) as H4.
    pose proof (fold_set_add_length l3 (set_add s3 y)). lia.
Qed.

(** ** The pairs the scan compares *)

Lemma scan_true_iff (l : list point) :
  has_self_intersections l = true <-> exists i j, intersecting_pair l i j.
Proof.
  unfold has_self_intersections, intersecting_pair, range. split.
  - intros H. apply existsb_exists in H. destruct H as (i & Hi & H).
    apply existsb_exists in H. destruct H as (j & Hj & H).
    apply in_seq in Hi, Hj. exists i, j. repeat split; [lia | lia | exact H].
  - intros (i & j & Hij & Hj & H).
    apply existsb_exists. exists i. split; [apply in_seq; lia|].
    apply existsb_exists. exists j. split; [apply in_seq; lia | exact H].
Qed.

Lemma scan_false_iff (l : list point) :
  has_self_intersections l = false <->
  forall i j, (i < j)%nat -> (j + 1 < length l)%nat ->
    do_intersect (getitem l i) (getitem l (i + 1))
                 (getitem l j) (getitem l (j + 1)) = false.
Proof.
  split.
  - intros H i j Hij Hj.
    destruct (do_intersect _ _ _ _) eqn:E; [|reflexivity].
    assert (Ht : has_self_intersections l = true)
      by (apply scan_true_iff; exists i, j; repeat split; assumption).
    congruence.
  - intros H. destruct (has_self_intersections l) eqn:E; [|reflexivity].
    apply scan_true_iff in E. destruct E as (i & j & Hij & Hj & E).
    rewrite (H i j Hij Hj) in E. discriminate.
Qed.

Lemma getitem_middle (pre l post : list point) (k : nat) :
  (k < length l)%nat ->
  getitem (pre ++ l ++ post) (length pre + k) = getitem l k.
Proof.
  intros Hk. unfold getitem.
  rewrite app_nth2 by lia.
  replace (length pre + k - length pre)%nat with k by lia.
  now rewrite app_nth1 by exact Hk.
Qed.

(** ** The set of a list without repeated point is as long as the list *)

Lemma set_add_incl s p x : In x (set_add s p) -> In x s \/ x = p.
Proof.
  unfold set_add. destruct (existsb _ s); [now left|].
  intros H. apply in_app_or in H. destruct H as [H | [H | []]]; auto.
Qed.

Lemma fold_set_add_incl l s x :
  In x (fold_left set_add l s) -> In x s \/ In x l.
Proof.
  revert s. induction l as [ | a l IH]; intros s H; simpl in *; [now left|].
  apply IH in H. destruct H as [H | H]; [|now right; right].
  apply set_add_incl in H. destruct H as [H | ->]; auto.
Qed.

Lemma set_of_incl l x : In x (set_of l) -> In x l.
Proof.
  intros H. apply fold_set_add_incl in H. now destruct H as [[] | H].
Qed.

Lemma set_of_snoc l x : set_of (l ++ [x]) = set_add (set_of l) x.
Proof. unfold set_of. now rewrite fold_left_app. Qed.

Lemma repeated_point_snoc l x : repeated_point l -> repeated_point (l ++ [x]).
Proof.
  intros (l1 & a & l2 & b & l3 & -> & H).
  exists l1, a, l2, b, (l3 ++ [x]). split; [|exact H].
  now rewrite <- !app_assoc, <- !app_comm_cons, <- !app_assoc.
Qed.

Lemma set_of_shorter l :
  (length (set_of l) < length l)%nat -> repeated_point l.
Proof.
  induction l as [ | x l IH] using rev_ind; [simpl; lia|].
  rewrite set_of_snoc, length_app. cbn [length]. unfold set_add.
  destruct (existsb (fun k => tuple_eqb k x) (set_of l)) eqn:E.
  - intros _. apply existsb_exists in E. destruct E as (k & Hk & Hkx).
    apply set_of_incl, in_split in Hk. destruct Hk as (l1 & l2 & ->).
    exists l1, k, l2, x, []. split; [|exact Hkx].
    now rewrite <- app_assoc, <- app_comm_cons.
  - rewrite length_app. cbn [length]. intros H.
    apply repeated_point_snoc, IH. lia.
Qed.

Lemma set_of_length l : (length (set_of l) <= length l)%nat.
Proof. pose proof (fold_set_add_length l []) as H. exact H. Qed.

Lemma duplicate_test_iff l :
  (length (set_of l) =? length l)%nat = false <-> repeated_point l.
Proof.
  rewrite Nat.eqb_neq. split.
  - intros H. apply set_of_shorter. pose proof (set_of_length l). lia.
  - intros H. apply set_of_repeated in H. lia.
Qed.

(** ** The outcomes of [validate_polygon] *)

Lemma first_last_some l :
  (4 <= length l)%nat -> exists p q, first_last l = Some (p, q).
Proof.
  destruct l as [ | p l']; [simpl; lia|]. intros _. now exists p, (last (p :: l') p).
Qed.

Lemma validate_polygon_outcome l :
  validate_polygon l =
  if (length l <? 4)%nat then Raise TooFewPoints
  else if negb (is_closed l) then Raise NotClosed
  else if negb (length (set_of (removelast l)) =? length (removelast l))%nat
       then Raise DuplicateVertex
  else if has_self_intersections (map xy l) then Raise SelfIntersecting
  else Ok l.
Proof.
  destruct (Nat.ltb_spec (length l) 4) as [Hs | Hn].
  - now apply validate_polygon_short.
  - rewrite (validate_polygon_long l Hn). unfold is_closed.
    destruct (first_last_some l Hn) as (p & q & ->). reflexivity.
Qed.

(** ** Float objects *)

Lemma xy_fresh p n : xy (fresh p n) = p.
Proof. now destruct p. Qed.

Lemma xy_objects_from l n : map xy (objects_from n l) = l.
Proof.
  revert n. induction l as [ | p l IH]; intros n; [reflexivity|].
  cbn [objects_from map]. now rewrite xy_fresh, IH.
Qed.

Lemma xy_objects l : map xy (objects l) = l.
Proof. apply xy_objects_from. Qed.

Lemma length_objects l : length (objects l) = length l.
Proof. rewrite <- (xy_objects l) at 2. now rewrite length_map. Qed.

(** Equal objects have equal values or are one NaN object. *)
Lemma item_eqb_value a b :
  is_nan (fst a) = false -> item_eqb a b = eqb (fst a) (fst b).
Proof.
  intros H. unfold item_eqb. rewrite H. cbn [andb]. apply orb_false_r.
Qed.

Lemma item_eqb_refl a : item_eqb a a = true.
Proof.
  unfold item_eqb. destruct a as [x n]. cbn [fst snd].
  rewrite Nat.eqb_refl. destruct (is_nan x) eqn:E.
  - apply orb_true_r.
  - unfold eqb, SFeqb. now rewrite compare_refl.
Qed.

Lemma tuple_eqb_refl p : tuple_eqb p p = true.
Proof. unfold tuple_eqb. now rewrite !item_eqb_refl. Qed.

(** A NaN object is equal to no other object. *)
Lemma item_eqb_nan_apart a b :
  is_nan (fst a) = true -> snd a <> snd b -> item_eqb a b = false.
Proof.
  intros Ha Hab. unfold item_eqb. apply Nat.eqb_neq in Hab. rewrite Hab.
  destruct a as [[s | s | | s m e] n]; try discriminate Ha.
  cbn [fst]. now rewrite andb_false_r.
Qed.

(** Without NaN, the equality of two tuples is the equality of their
    values. *)
Lemma tuple_eqb_value p q :
  has_nan (xy p) = false ->
  tuple_eqb p q
  = eqb (fst (xy p)) (fst (xy q)) && eqb (snd (xy p)) (snd (xy q)).
Proof.
  unfold has_nan, xy, tuple_eqb. cbn [fst snd]. intros H.
  apply orb_false_iff in H. destruct H as [H1 H2].
  now rewrite !item_eqb_value.
Qed.

(** ** Sequences with the same values, none of them NaN *)

Lemma same_values_eqb p p' q q' :
  same_values p p' -> same_values q q' -> tuple_eqb p q = tuple_eqb p' q'.
Proof.
  intros [Hp Np] [Hq _].
  rewrite (tuple_eqb_value p q Np).
  rewrite (tuple_eqb_value p' q') by (now rewrite <- Hp).
  now rewrite Hp, Hq.
Qed.

Lemma same_values_lists l l' :
  map xy l = map xy l' ->
  forallb (fun p => negb (has_nan (xy p))) l = true ->
  Forall2 same_values l l'.
Proof.
  revert l'. induction l as [ | p l IH]; intros [ | p' l'] H Hn;
    try discriminate H; [constructor|].
  cbn [map] in H. injection H as Hx Hy Hl.
  cbn [forallb] in Hn. apply andb_true_iff in Hn. destruct Hn as [Np Hn].
  constructor; [|now apply IH].
  split; [unfold xy; now rewrite Hx, Hy | now apply negb_true_iff].
Qed.

Lemma same_values_existsb s s' p p' :
  Forall2 same_values s s' -> same_values p p' ->
  existsb (fun k => tuple_eqb k p) s = existsb (fun k => tuple_eqb k p') s'.
Proof.
  intros Hs Hp. induction Hs as [ | k k' s s' Hk _ IH]; [reflexivity|].
  cbn [existsb]. now rewrite IH, (same_values_eqb k k' p p' Hk Hp).
Qed.

Lemma same_values_set_add s s' p p' :
  Forall2 same_values s s' -> same_values p p' ->
  Forall2 same_values (set_add s p) (set_add s' p').
Proof.
  intros Hs Hp. unfold set_add.
  rewrite (same_values_existsb s s' p p' Hs Hp).
  destruct (existsb _ s'); [exact Hs|].
  apply Forall2_app; [exact Hs|]. now constructor.
Qed.

Lemma same_values_fold l l' :
  Forall2 same_values l l' ->
  forall s s', Forall2 same_values s s' ->
  Forall2 same_values (fold_left set_add l s) (fold_left set_add l' s').
Proof.
  induction 1 as [ | p p' l l' Hp _ IH]; intros s s' Hs; [exact Hs|].
  cbn [fold_left]. apply IH. now apply same_values_set_add.
Qed.

Lemma same_values_removelast l l' :
  Forall2 same_values l l' ->
  Forall2 same_values (removelast l) (removelast l').
Proof.
  induction 1 as [ | p p' l l' Hp Hl IH]; [constructor|].
  cbn [removelast]. destruct Hl; [constructor|].
  constructor; [exact Hp | exact IH].
Qed.

Lemma same_values_last l l' :
  Forall2 same_values l l' ->
  forall d d', same_values d d' -> same_values (last l d) (last l' d').
Proof.
  induction 1 as [ | p p' l l' Hp Hl IH]; intros d d' Hd; [exact Hd|].
  cbn [last]. destruct Hl; [exact Hp|]. now apply IH.
Qed.

Lemma same_values_closed l l' :
  Forall2 same_values l l' -> is_closed l = is_closed l'.
Proof.
  intros H. unfold is_closed, first_last.
  destruct H as [ | p p' l l' Hp Hl]; [reflexivity|].
  apply same_values_eqb; [exact Hp|].
  apply same_values_last; [now constructor | exact Hp].
Qed.

Lemma same_values_set_length l l' :
  Forall2 same_values l l' -> length (set_of l) = length (set_of l').
Proof.
  intros H. apply (Forall2_length (R := same_values)).
  apply same_values_fold; [exact H | constructor].
Qed.

End Polygon.

(** * Properties of the validators *)

Import PyFloat PyFloatFacts Geometry Polygon.

(** C1.  On the simple square [(0,0),(0,1),(1,1),(1,0),(0,0)] the validator
    does not succeed, whatever float objects hold its coordinates: the scan
    compares the first edge with the second one, which starts where the
    first ends, and the polygon is rejected as self-intersecting. *)
Theorem square_rejected (l : list vertex) :
  map xy l = square -> validate_polygon l = Raise SelfIntersecting.
Proof.
  intros H.
  destruct l as [ | [[x0 i0] [y0 j0]] [ | [[x1 i1] [y1 j1]]
    [ | [[x2 i2] [y2 j2]] [ | [[x3 i3] [y3 j3]] [ | [[x4 i4] [y4 j4]]
    [ | ? ?]]]]]]; try discriminate H.
  unfold square, xy in H. cbn [map fst snd] in H.
  injection H as -> -> -> -> -> -> -> -> -> ->.
  vm_compute. reflexivity.
Qed.

Lemma square_rejected_own_objects :
  map xy (objects square) = square /\
  validate_polygon (objects square) = Raise SelfIntersecting.
Proof.
  assert (H : map xy (objects square) = square) by reflexivity.
  split; [exact H|]. exact (square_rejected (objects square) H).
Defined.

(** A polygon of at least 4 points with integer coordinates below [2^25] is
    always reported as self-intersecting. *)
Lemma scan_rejects_grid_polygon (l : list zpoint) :
  (4 <= length l)%nat ->
  Forall in_grid l ->
  has_self_intersections (map float_point l) = true.
Proof.
  intros Hn Hg. apply scan_finite_first_edge; [now rewrite length_map|].
  destruct l as [ | a [ | b l']]; cbn [length] in Hn; try lia.
  inversion Hg as [ | ? ? Ha Hg']; subst. inversion Hg' as [ | ? ? Hb _]; subst.
  now apply Grid.finite_edge_grid.
Qed.

(** C2, as stated, fails: the large triangle has four points with finite
    coordinates, is closed and has no repeated vertex, yet the scan finds no
    intersection and the polygon is accepted. *)
Lemma huge_triangle_accepted :
  forallb valid_point huge_triangle = true /\
  forallb finite_point huge_triangle = true /\
  (4 <= length huge_triangle)%nat /\
  has_self_intersections huge_triangle = false /\
  map xy (objects huge_triangle) = huge_triangle /\
  validate_polygon (objects huge_triangle) = Ok (objects huge_triangle).
Proof.
  split; [vm_compute; reflexivity|]. split; [vm_compute; reflexivity|].
  split; [vm_compute; lia|]. split; [vm_compute; reflexivity|].
  split; vm_compute; reflexivity.
Qed.

(** C2, amended.  For every coordinate list of at least 4 points whose first
    edge has finite end points and finite coordinate differences,
    [has_self_intersections] returns true, because the first pair the scan
    compares is the first edge and the edge after it; so no such polygon is
    ever accepted. *)
Theorem scan_rejects_finite_first_edge (l : list vertex) :
  (4 <= length l)%nat ->
  finite_edge (getitem (map xy l) 0) (getitem (map xy l) 1) = true ->
  has_self_intersections (map xy l) = true /\
  (forall v, validate_polygon l <> Ok v) /\
  (forall type text d, new_PolygonDescription type l text <> Ok d).
Proof.
  intros Hn Hf.
  assert (Hs : has_self_intersections (map xy l) = true)
    by (apply scan_finite_first_edge; [now rewrite length_map | exact Hf]).
  split; [exact Hs|]. split.
  - intros v. rewrite (validate_polygon_long l Hn).
    destruct (first_last l) as [[p q] | ]; [|discriminate].
    destruct (negb (tuple_eqb p q)); [discriminate|].
    destruct (negb _); [discriminate|].
    rewrite Hs. discriminate.
  - intros type text d.
    unfold new_PolygonDescription, validate_coordinates.
    destruct (length l <? 4)%nat; [discriminate|]. cbn [bind].
    unfold check_polygon_validity. cbn [coordinates].
    destruct l as [ | p l']; [discriminate|].
    destruct (negb (tuple_eqb p _)); [discriminate|].
    destruct (negb _); [discriminate|].
    rewrite Hs. discriminate.
Qed.

Lemma scan_rejects_finite_first_edge_square :
  let l := objects square in
  (4 <= length l)%nat /\
  finite_edge (getitem (map xy l) 0) (getitem (map xy l) 1) = true /\
  has_self_intersections (map xy l) = true /\
  (forall v, validate_polygon l <> Ok v) /\
  (forall type text d, new_PolygonDescription type l text <> Ok d).
Proof.
  cbv zeta.
  assert (Hn : (4 <= length (objects square))%nat) by (vm_compute; lia).
  assert (Hf : finite_edge (getitem (map xy (objects square)) 0)
                           (getitem (map xy (objects square)) 1) = true)
    by (vm_compute; reflexivity).
  split; [exact Hn|]. split; [exact Hf|].
  exact (scan_rejects_finite_first_edge (objects square) Hn Hf).
Defined.

(** C3, as stated, fails, for both kinds of contact.  The segments from
    [(-2^1023, -2^1023)] to [(-2^1023, 2^1023)] and from there to
    [(2^1023, 2^1023)] touch at an end point, and [do_intersect] answers
    false: the coordinate differences overflow.  The segments from
    [(-2^53, -3 * 2^53)] to [(1, 3)] and from [(-1, -3)] to
    [(2^53, 3 * 2^53)] are on the line [y = 3 x] and overlap from [(-1, -3)]
    to [(1, 3)]; every coordinate is an integer that binary64 holds exactly,
    nothing overflows, and [do_intersect] answers false: the cross products
    are rounded, none of them to [0]. *)
Lemma degenerate_contact_missed :
  (let a := (neg_huge, neg_huge) in
   let b := (neg_huge, huge) in
   let c := (huge, huge) in
   forallb valid_point [a; b; c] = true /\
   forallb finite_point [a; b; c] = true /\
   share_endpoint a b b c /\ do_intersect a b b c = false) /\
  (let a : zpoint := (- 2 ^ 53, - 3 * 2 ^ 53)%Z in
   let b : zpoint := (1, 3)%Z in
   let c : zpoint := (-1, -3)%Z in
   let d : zpoint := (2 ^ 53, 3 * 2 ^ 53)%Z in
   float_point a = (ldexp (-1) 53, ldexp (-3) 53) /\
   float_point d = (ldexp 1 53, ldexp 3 53) /\
   forallb valid_point (map float_point [a; b; c; d]) = true /\
   cross a b c = 0%Z /\ cross a b d = 0%Z /\
   lies_on_Z a b c = true /\ lies_on_Z c d b = true /\
   tame_edge (float_point a) (float_point b) = true /\
   tame_edge (float_point c) (float_point d) = true /\
   [orientation (float_point a) (float_point b) (float_point c);
    orientation (float_point a) (float_point b) (float_point d);
    orientation (float_point c) (float_point d) (float_point a);
    orientation (float_point c) (float_point d) (float_point b)]
   = [2; 1; 2; 2]%Z /\
   do_intersect (float_point a) (float_point b)
                (float_point c) (float_point d) = false).
Proof.
  split; cbv zeta.
  - split; [vm_compute; reflexivity|].
    split; [vm_compute; reflexivity|]. split.
    + right. right. left. reflexivity.
    + vm_compute. reflexivity.
  - repeat split; vm_compute; reflexivity.
Qed.

(** C3, amended.  [do_intersect] reports an intersection not only for proper
    crossings.  It does so for every pair of segments with an end point in
    common, provided the end points, the coordinate differences and their
    product are finite for both segments.  And it does so for every pair of
    segments with integer coordinates below [2^25] in which an end point of
    one segment lies on the other segment, which is the case when the two
    touch at an end point and when they overlap along a common line. *)
Theorem contact_is_intersection (p1 q1 p2 q2 : point) :
  (tame_edge p1 q1 = true /\ tame_edge p2 q2 = true /\
   share_endpoint p1 q1 p2 q2)
  \/ grid_contact p1 q1 p2 q2 ->
  do_intersect p1 q1 p2 q2 = true.
Proof.
  intros [(H1 & H2 & Hs) | (a & b & c & d & Ha & Hb & Hc & Hd & E & H)].
  - apply collinear_contact_intersect. now apply share_endpoint_contact.
  - destruct E as (-> & -> & -> & ->). now apply Grid.contact_grid_intersect.
Qed.

Lemma contact_is_intersection_overlap :
  let a := point_of_Z 0 0 in
  let b := point_of_Z 2 0 in
  let c := point_of_Z 1 0 in
  let d := point_of_Z 3 0 in
  grid_contact a b c d /\ do_intersect a b c d = true.
Proof.
  cbv zeta.
  assert (H : grid_contact (point_of_Z 0 0) (point_of_Z 2 0)
                           (point_of_Z 1 0) (point_of_Z 3 0)).
  { exists (0, 0)%Z, (2, 0)%Z, (1, 0)%Z, (3, 0)%Z.
    unfold in_grid. cbn [fst snd Z.abs].
    change (2 ^ 25)%Z with 33554432%Z.
    repeat split; try lia; reflexivity. }
  split; [exact H|].
  apply contact_is_intersection. right. exact H.
Defined.

(** Two segments that meet in a corner. *)
Example corner_segments_intersect :
  let a := point_of_Z 0 0 in
  let b := point_of_Z 1 1 in
  let c := point_of_Z 2 0 in
  tame_edge a b = true /\ tame_edge c b = true /\ share_endpoint a b c b /\
  do_intersect a b c b = true.
Proof.
  cbv zeta. split; [vm_compute; reflexivity|].
  split; [vm_compute; reflexivity|]. split.
  - right. right. right. reflexivity.
  - vm_compute. reflexivity.
Qed.

(** Two segments of the x axis that overlap between [1] and [2]. *)
Example overlapping_segments_intersect :
  collinear_contact (point_of_Z 0 0) (point_of_Z 2 0)
                    (point_of_Z 1 0) (point_of_Z 3 0) = true /\
  do_intersect (point_of_Z 0 0) (point_of_Z 2 0)
               (point_of_Z 1 0) (point_of_Z 3 0) = true.
Proof. vm_compute. split; reflexivity. Qed.

(** C4.  A sequence of fewer than 4 points fails with [TooFewPoints],
    whatever the other checks would say. *)
Theorem too_few_points (l : list vertex) :
  (length l < 4)%nat ->
  validate_polygon l = Raise TooFewPoints /\
  (forall type text, new_PolygonDescription type l text = Raise TooFewPoints).
Proof.
  intros H. split; [now apply validate_polygon_short|].
  intros type text. unfold new_PolygonDescription, validate_coordinates.
  apply Nat.ltb_lt in H. now rewrite H.
Qed.

Lemma too_few_points_open_pair :
  let l := objects [point_of_Z 0 0; point_of_Z 1 1] in
  (length l < 4)%nat /\ validate_polygon l = Raise TooFewPoints.
Proof.
  cbv zeta.
  assert (H : (length (objects [point_of_Z 0 0; point_of_Z 1 1]) < 4)%nat)
    by (vm_compute; lia).
  split; [exact H|]. exact (proj1 (too_few_points _ H)).
Defined.

(** C5.  A sequence of at least 4 points whose first point differs from its
    last point, as [coordinates[0] != coordinates[-1]] decides it, fails
    with [NotClosed], whatever the duplicate and the intersection checks
    would say.  Two tuples differ when the items at one of the two positions
    are two objects with unequal values; a NaN object does not differ from
    itself. *)
Theorem not_closed (l : list vertex) (p q : vertex) :
  (4 <= length l)%nat ->
  first_last l = Some (p, q) ->
  tuple_eqb p q = false ->
  validate_polygon l = Raise NotClosed.
Proof.
  intros Hn Hfl Hpq. rewrite (validate_polygon_long l Hn), Hfl, Hpq. reflexivity.
Qed.

Lemma not_closed_open_square :
  let l := objects [point_of_Z 0 0; point_of_Z 0 1; point_of_Z 1 1;
                    point_of_Z 1 0] in
  validate_polygon l = Raise NotClosed.
Proof.
  cbv zeta.
  apply (not_closed _ (fresh (point_of_Z 0 0) 0) (fresh (point_of_Z 1 0) 6)).
  - vm_compute. lia.
  - reflexivity.
  - vm_compute. reflexivity.
Defined.

(** C6, as stated, fails: the closed sequence [(0,0),(0,0),(0,0)] repeats a
    point among its vertices before the closing one, and fails with
    [TooFewPoints], not with [DuplicateVertex]. *)
Lemma short_closed_repeated_not_duplicate :
  let l := objects [point_of_Z 0 0; point_of_Z 0 0; point_of_Z 0 0] in
  first_last l = Some (fresh (point_of_Z 0 0) 0, fresh (point_of_Z 0 0) 4) /\
  tuple_eqb (fresh (point_of_Z 0 0) 0) (fresh (point_of_Z 0 0) 4) = true /\
  repeated_point (removelast l) /\
  validate_polygon l = Raise TooFewPoints /\
  validate_polygon l <> Raise DuplicateVertex.
Proof.
  cbv zeta. split; [reflexivity|]. split; [reflexivity|]. split.
  - exists [], (fresh (point_of_Z 0 0) 0), [], (fresh (point_of_Z 0 0) 2), [].
    split; reflexivity.
  - split; [vm_compute; reflexivity|]. vm_compute. discriminate.
Qed.

(** C6, amended.  A closed sequence of at least 4 points that repeats a point
    among the vertices before the closing one fails with [DuplicateVertex]. *)
Theorem duplicate_vertex (l : list vertex) (p q : vertex) :
  (4 <= length l)%nat ->
  first_last l = Some (p, q) ->
  tuple_eqb p q = true ->
  repeated_point (removelast l) ->
  validate_polygon l = Raise DuplicateVertex.
Proof.
  intros Hn Hfl Hpq Hrep.
  rewrite (validate_polygon_long l Hn), Hfl, Hpq. cbn [negb].
  pose proof (set_of_repeated _ Hrep) as Hlt.
  apply Nat.lt_neq, Nat.eqb_neq in Hlt. rewrite Hlt. reflexivity.
Qed.

Lemma duplicate_vertex_doubled_corner :
  let l := objects [point_of_Z 0 0; point_of_Z 1 1; point_of_Z 1 1;
                    point_of_Z 2 0; point_of_Z 0 0] in
  validate_polygon l = Raise DuplicateVertex.
Proof.
  cbv zeta.
  apply (duplicate_vertex _ (fresh (point_of_Z 0 0) 0)
                            (fresh (point_of_Z 0 0) 8)).
  - vm_compute. lia.
  - reflexivity.
  - vm_compute. reflexivity.
  - exists [fresh (point_of_Z 0 0) 0], (fresh (point_of_Z 1 1) 2), [],
      (fresh (point_of_Z 1 1) 4), [fresh (point_of_Z 2 0) 6].
    split; reflexivity.
Defined.

(** ** Orientation and translation *)

Lemma orientation_feq p q r p' q' r' :
  feq (orientation_val p q r) (orientation_val p' q' r') ->
  orientation p q r = orientation p' q' r'.
Proof.
  intros H. unfold orientation.
  now rewrite (eqb_feq _ _ zero H), (gtb_feq _ _ zero H).
Qed.

(** [orientation] is a function of the two difference vectors. *)
Lemma orientation_of_differences p q r p' q' r' :
  feq (sub (fst q') (fst p')) (sub (fst q) (fst p)) ->
  feq (sub (snd q') (snd p')) (sub (snd q) (snd p)) ->
  feq (sub (fst r') (fst q')) (sub (fst r) (fst q)) ->
  feq (sub (snd r') (snd q')) (sub (snd r) (snd q)) ->
  orientation p' q' r' = orientation p q r.
Proof.
  intros Hx1 Hy1 Hx2 Hy2.
  apply orientation_feq. unfold orientation_val.
  apply sub_feq; apply mul_feq; assumption.
Qed.

Lemma keeps_differences_integers (tx ty px py qx qy : Z) :
  fits_52 tx -> fits_52 ty -> fits_52 px -> fits_52 py ->
  fits_52 qx -> fits_52 qy ->
  keeps_differences (point_of_Z tx ty) (point_of_Z px py) (point_of_Z qx qy).
Proof.
  unfold fits_52. intros Htx Hty Hpx Hpy Hqx Hqy.
  unfold keeps_differences, translate, point_of_Z. cbn [fst snd].
  rewrite !Exact.add_of_Z by (unfold small; lia).
  rewrite !Exact.sub_of_Z by (unfold small; lia).
  split; left; f_equal; lia.
Qed.

(** On such coordinates the orientation does not change under translation. *)
Lemma orientation_translation_integers (tx ty px py qx qy rx ry : Z) :
  fits_52 tx -> fits_52 ty -> fits_52 px -> fits_52 py ->
  fits_52 qx -> fits_52 qy -> fits_52 rx -> fits_52 ry ->
  orientation (translate (point_of_Z tx ty) (point_of_Z px py))
              (translate (point_of_Z tx ty) (point_of_Z qx qy))
              (translate (point_of_Z tx ty) (point_of_Z rx ry))
  = orientation (point_of_Z px py) (point_of_Z qx qy) (point_of_Z rx ry).
Proof.
  intros Htx Hty Hpx Hpy Hqx Hqy Hrx Hry.
  destruct (keeps_differences_integers tx ty px py qx qy) as [Hx1 Hy1];
    try assumption.
  destruct (keeps_differences_integers tx ty qx qy rx ry) as [Hx2 Hy2];
    try assumption.
  now apply orientation_of_differences.
Qed.

(** C8, as stated, fails: with [p = (0,0)], [q = (1, 2^-60)] and [r = (2,0)]
    the orientation is 1; after the translation by [(0,1)] the sum
    [2^-60 + 1] is rounded to [1], the three points lie on one line and the
    orientation is 0. *)
Lemma orientation_changed_by_translation :
  let p := point_of_Z 0 0 in
  let q := (of_Z 1, ldexp 1 (-60)) in
  let r := point_of_Z 2 0 in
  let t := point_of_Z 0 1 in
  forallb valid_point [p; q; r; t] = true /\
  orientation p q r = 1%Z /\
  orientation (translate t p) (translate t q) (translate t r) = 0%Z.
Proof. cbv zeta. repeat split; vm_compute; reflexivity. Qed.

(** C8, amended.  [orientation] depends on its arguments through the
    coordinate differences [q - p] and [r - q] only, so it is invariant under
    every simultaneous translation of [p], [q] and [r] that leaves these
    differences as they are, as every translation does when no sum or
    difference is rounded. *)
Theorem orientation_translation_invariant (t p q r : point) :
  keeps_differences t p q ->
  keeps_differences t q r ->
  orientation (translate t p) (translate t q) (translate t r)
  = orientation p q r.
Proof.
  intros [Hx1 Hy1] [Hx2 Hy2].
  now apply orientation_of_differences.
Qed.

Lemma orientation_translation_invariant_example :
  let t := point_of_Z 5 (-7) in
  let p := point_of_Z 0 0 in
  let q := point_of_Z 1 2 in
  let r := point_of_Z 3 1 in
  (keeps_differences t p q /\ keeps_differences t q r) /\
  orientation (translate t p) (translate t q) (translate t r)
  = orientation p q r.
Proof.
  cbv zeta.
  assert (H1 : keeps_differences (point_of_Z 5 (-7)) (point_of_Z 0 0)
                                 (point_of_Z 1 2))
    by (split; left; vm_compute; reflexivity).
  assert (H2 : keeps_differences (point_of_Z 5 (-7)) (point_of_Z 1 2)
                                 (point_of_Z 3 1))
    by (split; left; vm_compute; reflexivity).
  split; [split; assumption|].
  exact (orientation_translation_invariant _ _ _ _ H1 H2).
Defined.

(** ** Validating twice *)

Lemma validate_polygon_ok (l v : list vertex) :
  validate_polygon l = Ok v -> v = l.
Proof.
  destruct (Nat.lt_ge_cases (length l) 4) as [Hs | Hn].
  - rewrite (validate_polygon_short l Hs). discriminate.
  - rewrite (validate_polygon_long l Hn).
    destruct (first_last l) as [[p q] | ]; [|discriminate].
    destruct (negb (tuple_eqb p q)); [discriminate|].
    destruct (negb _); [discriminate|].
    destruct (has_self_intersections (map xy l)); [discriminate|].
    intros H. now injection H.
Qed.

(** C9.  Validation is a function of the vertex sequence and hands the
    sequence back unchanged: validating the vertex sequence of the outcome
    (that of the validated polygon, or the input again after a failure)
    yields the same result, success value or error. *)
Theorem validate_polygon_idempotent (l : list vertex) :
  validate_polygon
    (match validate_polygon l with Ok v => v | Raise _ => l end)
  = validate_polygon l.
Proof.
  destruct (validate_polygon l) as [v | e] eqn:E.
  - apply validate_polygon_ok in E as Hv. subst v. exact E.
  - exact E.
Qed.

(** ** The research request *)

Module Collection.

Lemma mapM_valid (ds : list Description) :
  Forall valid_description ds -> mapM validate_description ds = Ok ds.
Proof.
  induction 1 as [ | d ds Hd _ IH]; [reflexivity|].
  cbn [mapM]. rewrite Hd. cbn [bind]. rewrite IH. reflexivity.
Qed.

Lemma validate_collection_valid (ds : list Description) :
  Forall valid_description ds ->
  validate_collection ds =
  if (1 <? length (text_descriptions ds))%nat
  then Raise TooManyTextDescriptors else Ok ds.
Proof.
  intros H. unfold validate_collection.
  rewrite (mapM_valid ds H). cbn [bind].
  unfold check_single_text_description. cbn [descriptions].
  destruct (1 <? _)%nat; reflexivity.
Qed.

Lemma text_descriptions_remove l1 t l2 :
  length (text_descriptions (l1 ++ IsText t :: l2))
  = S (length (text_descriptions (l1 ++ l2))).
Proof.
  unfold text_descriptions. rewrite !filter_app. cbn [filter isinstance_TextDescription].
  rewrite !length_app. cbn [length]. lia.
Qed.

End Collection.

Import Collection.

(** C7.  A collection of individually valid descriptors of which exactly two
    are text descriptors is rejected with [TooManyTextDescriptors]; with one
    of the text descriptors removed it is accepted as it is. *)
Theorem two_text_descriptions (ds : list Description) :
  Forall valid_description ds ->
  length (text_descriptions ds) = 2%nat ->
  validate_collection ds = Raise TooManyTextDescriptors /\
  (forall l1 t l2, ds = l1 ++ IsText t :: l2 ->
                   validate_collection (l1 ++ l2) = Ok (l1 ++ l2)).
Proof.
  intros Hv H2. split.
  - rewrite (validate_collection_valid ds Hv), H2. reflexivity.
  - intros l1 t l2 ->.
    rewrite text_descriptions_remove in H2.
    apply Forall_app in Hv. destruct Hv as [Hv1 Hv2].
    apply Forall_inv_tail in Hv2.
    rewrite validate_collection_valid by (apply Forall_app; split; assumption).
    injection H2 as ->. reflexivity.
Qed.

Lemma two_text_descriptions_example :
  let note := IsText {| text_type := "text"; text_text := "first" |} in
  let mark := IsPoint {| point_type := "point";
                         point_coordinates := fresh (point_of_Z 1 2) 0;
                         point_text := "here" |} in
  let more := {| text_type := "text"; text_text := "second" |} in
  validate_collection [note; mark; IsText more] = Raise TooManyTextDescriptors /\
  validate_collection [note; mark] = Ok [note; mark].
Proof.
  cbv zeta.
  set (note := IsText {| text_type := "text"; text_text := "first" |}).
  set (mark := IsPoint {| point_type := "point";
                          point_coordinates := fresh (point_of_Z 1 2) 0;
                          point_text := "here" |}).
  set (more := {| text_type := "text"; text_text := "second" |}).
  assert (Hv : Forall valid_description [note; mark; IsText more])
    by (repeat constructor).
  assert (H2 : length (text_descriptions [note; mark; IsText more]) = 2%nat)
    by reflexivity.
  destruct (two_text_descriptions _ Hv H2) as [Hbad Hgood].
  split; [exact Hbad|].
  exact (Hgood [note; mark] more [] eq_refl).
Defined.

(** C10.  A comment given as [None] is replaced by the empty string before
    its type is checked, so a request that validates always carries a string
    comment: the empty string when [None] was given, the given string
    otherwise. *)
Theorem comment_never_None (name : string) (day : date) (comment : pyobj)
  (approval : option bool) (descs : list Description)
  (r : CreateResearchRequest) :
  new_CreateResearchRequest name day comment approval descs = Ok r ->
  r.(research_comment) <> None /\
  (comment = PyNone -> r.(research_comment) = Some "") /\
  (forall s, comment = PyStr s -> r.(research_comment) = Some s).
Proof.
  unfold new_CreateResearchRequest.
  destruct comment as [ | s | z | b | x]; cbn [validate_comment str_or_None bind];
    try discriminate;
    (destruct (mapM validate_description descs) as [ds | e];
     cbn [bind]; [|discriminate]);
    unfold check_single_text_description; cbn [descriptions];
    (destruct (1 <? _)%nat; [discriminate|]);
    intros H; injection H as <-; cbn [research_comment];
    (split; [discriminate|]); split; intros; congruence.
Qed.

Lemma comment_never_None_example :
  let r := {| research_name := "survey"; day_start := (2024, 5, 17)%Z;
              research_comment := Some ""; approval_required := true;
              descriptions := [] |} in
  new_CreateResearchRequest "survey" (2024, 5, 17)%Z PyNone None [] = Ok r /\
  r.(research_comment) = Some "".
Proof.
  cbv zeta.
  assert (H : new_CreateResearchRequest "survey" (2024, 5, 17)%Z PyNone None []
              = Ok {| research_name := "survey"; day_start := (2024, 5, 17)%Z;
                      research_comment := Some ""; approval_required := true;
                      descriptions := [] |}) by reflexivity.
  split; [exact H|].
  exact (proj1 (proj2 (comment_never_None _ _ _ _ _ _ H)) eq_refl).
Defined.

(** * Further properties of the validators *)

Import Exact Grid.

(** ** The scan of the edges *)

(** X1.  [has_self_intersections] reports an intersection exactly when
    [do_intersect] does for some pair of edges [i < j] of the vertex
    sequence, edge [k] running from vertex [k] to vertex [k + 1]; pairs of
    consecutive edges are among them. *)
Theorem scan_compares_every_edge_pair (l : list point) :
  (has_self_intersections l = true <-> exists i j, intersecting_pair l i j) /\
  (has_self_intersections l = false <->
   forall i j, (i < j)%nat -> (j + 1 < length l)%nat ->
     do_intersect (getitem l i) (getitem l (i + 1))
                  (getitem l j) (getitem l (j + 1)) = false).
Proof. split; [apply scan_true_iff | apply scan_false_iff]. Qed.

(** X2.  An intersection the scan reports stays reported when vertices are
    put before or after the sequence. *)
Theorem scan_extension (pre l post : list point) :
  has_self_intersections l = true ->
  has_self_intersections (pre ++ l ++ post) = true.
Proof.
  intros H. apply scan_true_iff in H. destruct H as (i & j & Hij & Hj & H).
  apply scan_true_iff. exists (length pre + i)%nat, (length pre + j)%nat.
  unfold intersecting_pair. rewrite !length_app.
  split; [lia|]. split; [lia|].
  replace (length pre + i + 1)%nat with (length pre + (i + 1))%nat by lia.
  replace (length pre + j + 1)%nat with (length pre + (j + 1))%nat by lia.
  rewrite !getitem_middle by lia. exact H.
Qed.

Lemma scan_extension_square :
  has_self_intersections square = true /\
  has_self_intersections
    ([point_of_Z 5 5] ++ square ++ [point_of_Z 7 7; point_of_Z 9 2]) = true.
Proof.
  assert (H : has_self_intersections square = true) by (vm_compute; reflexivity).
  split; [exact H|]. exact (scan_extension _ _ _ H).
Defined.

(** X3.  The scan reports an intersection as soon as one edge other than the
    last has finite end points and finite coordinate differences: it is
    compared with the edge that follows it. *)
Theorem scan_rejects_any_finite_edge (l : list point) (i : nat) :
  (i + 2 < length l)%nat ->
  finite_edge (getitem l i) (getitem l (i + 1)) = true ->
  has_self_intersections l = true.
Proof.
  intros Hi Hf. apply scan_true_iff. exists i, (i + 1)%nat.
  unfold intersecting_pair. split; [lia|]. split; [lia|].
  now apply do_intersect_consecutive.
Qed.

Lemma scan_rejects_any_finite_edge_second :
  let l := [(neg_huge, neg_huge); (huge, neg_huge); (huge, zero);
            (zero, huge); (neg_huge, neg_huge)] in
  finite_edge (getitem l 0) (getitem l 1) = false /\
  finite_edge (getitem l 1) (getitem l 2) = true /\
  has_self_intersections l = true.
Proof.
  cbv zeta. split; [vm_compute; reflexivity|].
  set (l := [(neg_huge, neg_huge); (huge, neg_huge); (huge, zero);
             (zero, huge); (neg_huge, neg_huge)]).
  assert (Hi : (1 + 2 < length l)%nat) by (vm_compute; lia).
  assert (Hf : finite_edge (getitem l 1) (getitem l (1 + 1)) = true)
    by (vm_compute; reflexivity).
  split; [exact Hf|]. exact (scan_rejects_any_finite_edge l 1 Hi Hf).
Defined.

(** ** The geometry kernel *)

(** X4.  [do_intersect] does not depend on the order in which the two
    segments are given. *)
Theorem do_intersect_symmetric (p1 q1 p2 q2 : point) :
  do_intersect p2 q2 p1 q1 = do_intersect p1 q1 p2 q2.
Proof.
  rewrite !do_intersect_unfold, collinear_contact_sym.
  f_equal. apply andb_comm.
Qed.

(** X5.  Reading the three points in the opposite order keeps a collinear
    triple collinear and turns orientation 1 into orientation 2, for all
    floats: the two cross products are opposite numbers. *)
Theorem orientation_reversed (p q r : point) :
  (orientation p q r = 0%Z <-> orientation r q p = 0%Z) /\
  (orientation p q r = 1%Z -> orientation r q p = 2%Z) /\
  (orientation r q p = 1%Z -> orientation p q r = 2%Z).
Proof.
  rewrite (orientation_is_code r q p), (orientation_is_code p q r).
  rewrite (orientation_code_feq _ _ (orientation_val_reverse p q r)).
  apply orientation_code_opp.
Qed.

(** X6.  When one of the six coordinates is NaN the cross product is NaN,
    both comparisons with 0 are false and [orientation] returns 2. *)
Theorem orientation_of_nan (p q r : point) :
  has_nan p || has_nan q || has_nan r = true -> orientation p q r = 2%Z.
Proof.
  intros H. rewrite orientation_is_code.
  now apply orientation_code_nan, orientation_val_nan.
Qed.

Lemma orientation_of_nan_example :
  let p := point_of_Z 0 0 in
  let q := (of_Z 1, nan) in
  let r := point_of_Z 2 0 in
  has_nan p || has_nan q || has_nan r = true /\ orientation p q r = 2%Z.
Proof.
  cbv zeta.
  assert (H : has_nan (point_of_Z 0 0) || has_nan (of_Z 1, nan)
              || has_nan (point_of_Z 2 0) = true) by reflexivity.
  split; [exact H|]. exact (orientation_of_nan _ _ _ H).
Defined.

(** X7.  A triple in which a point occurs twice is collinear, provided the
    end points, the coordinate differences and their product are finite. *)
Theorem orientation_of_repeated_point (p q : point) :
  tame_edge p q = true ->
  orientation p p q = 0%Z /\ orientation p q q = 0%Z /\
  orientation p q p = 0%Z.
Proof.
  intros H.
  assert (E : finite_edge p q = true)
    by (unfold tame_edge in H; apply andb_true_iff in H; tauto).
  split; [now apply orientation_twice_start|].
  split; [now apply orientation_end | now apply orientation_start].
Qed.

Lemma orientation_of_repeated_point_example :
  let p := point_of_Z 3 (-4) in
  let q := (ldexp 1 (-60), of_Z 7) in
  tame_edge p q = true /\
  orientation p p q = 0%Z /\ orientation p q q = 0%Z /\
  orientation p q p = 0%Z.
Proof.
  cbv zeta.
  assert (H : tame_edge (point_of_Z 3 (-4)) (ldexp 1 (-60), of_Z 7) = true)
    by (vm_compute; reflexivity).
  split; [exact H|]. exact (orientation_of_repeated_point _ _ H).
Defined.

(** ** The kernel on integer coordinates *)

(** X8.  On points with integer coordinates below [2^25] in absolute value
    nothing is rounded: [orientation] is 0, 1 or 2 exactly when the integer
    cross product is zero, positive or negative. *)
Theorem orientation_exact_on_grid (p q r : zpoint) :
  in_grid p -> in_grid q -> in_grid r ->
  let o := orientation (float_point p) (float_point q) (float_point r) in
  (o = 0%Z <-> cross p q r = 0%Z) /\
  (o = 1%Z <-> (0 < cross p q r)%Z) /\
  (o = 2%Z <-> (cross p q r < 0)%Z).
Proof.
  intros Hp Hq Hr o. subst o.
  rewrite (orientation_grid p q r Hp Hq Hr). unfold orientation_Z.
  destruct (Z.eqb_spec (cross p q r) 0) as [E | E];
    [|destruct (Z.ltb_spec 0 (cross p q r)) as [L | L]];
    repeat split; intros; try lia; try discriminate.
Qed.

Lemma orientation_exact_on_grid_example :
  let p : zpoint := (0, 0)%Z in
  let q : zpoint := (4, 1)%Z in
  let r : zpoint := (8, 3)%Z in
  (cross p q r < 0)%Z /\
  orientation (float_point p) (float_point q) (float_point r) = 2%Z.
Proof.
  cbv zeta.
  assert (Hp : in_grid (0, 0)%Z) by (vm_compute; split; reflexivity).
  assert (Hq : in_grid (4, 1)%Z) by (vm_compute; split; reflexivity).
  assert (Hr : in_grid (8, 3)%Z) by (vm_compute; split; reflexivity).
  assert (Hc : (cross (0, 0) (4, 1) (8, 3) < 0)%Z) by reflexivity.
  split; [exact Hc|].
  exact (proj2 (proj2 (proj2 (orientation_exact_on_grid _ _ _ Hp Hq Hr))) Hc).
Defined.

(** X9.  On such points [on_segment p q r] holds exactly when [q] is inside
    the bounding box of [p] and [r]. *)
Theorem on_segment_exact_on_grid (p q r : zpoint) :
  in_grid p -> in_grid q -> in_grid r ->
  on_segment (float_point p) (float_point q) (float_point r) = true <->
  (Z.min (fst p) (fst r) <= fst q <= Z.max (fst p) (fst r))%Z /\
  (Z.min (snd p) (snd r) <= snd q <= Z.max (snd p) (snd r))%Z.
Proof.
  intros Hp Hq Hr. rewrite (on_segment_grid p q r Hp Hq Hr).
  unfold on_segment_Z. rewrite !andb_true_iff, !Z.leb_le. tauto.
Qed.

Lemma on_segment_exact_on_grid_example :
  let p : zpoint := (0, 5)%Z in
  let q : zpoint := (2, 3)%Z in
  let r : zpoint := (7, -1)%Z in
  on_segment (float_point p) (float_point q) (float_point r) = true.
Proof.
  cbv zeta.
  assert (Hp : in_grid (0, 5)%Z) by (vm_compute; split; reflexivity).
  assert (Hq : in_grid (2, 3)%Z) by (vm_compute; split; reflexivity).
  assert (Hr : in_grid (7, -1)%Z) by (vm_compute; split; reflexivity).
  apply (proj2 (on_segment_exact_on_grid _ _ _ Hp Hq Hr)).
  cbn [fst snd]. lia.
Defined.

(** X10.  On such points [do_intersect] is the test of exact integer
    geometry: it answers true exactly when each segment has its two end
    points classified differently with respect to the other segment, or an
    end point of one segment lies on the other segment. *)
Theorem do_intersect_exact_on_grid (p1 q1 p2 q2 : zpoint) :
  in_grid p1 -> in_grid q1 -> in_grid p2 -> in_grid q2 ->
  do_intersect (float_point p1) (float_point q1)
               (float_point p2) (float_point q2) = true <->
  (orientation_Z p1 q1 p2 <> orientation_Z p1 q1 q2 /\
   orientation_Z p2 q2 p1 <> orientation_Z p2 q2 q1) \/
  contact_Z p1 q1 p2 q2 = true.
Proof.
  intros H1 H2 H3 H4. rewrite (do_intersect_grid p1 q1 p2 q2 H1 H2 H3 H4).
  unfold do_intersect_Z.
  rewrite orb_true_iff, andb_true_iff, !negb_true_iff, !Z.eqb_neq. tauto.
Qed.

Lemma do_intersect_exact_on_grid_crossing :
  let p1 : zpoint := (0, 0)%Z in
  let q1 : zpoint := (4, 4)%Z in
  let p2 : zpoint := (0, 4)%Z in
  let q2 : zpoint := (4, 0)%Z in
  do_intersect (float_point p1) (float_point q1)
               (float_point p2) (float_point q2) = true.
Proof.
  cbv zeta.
  assert (H1 : in_grid (0, 0)%Z) by (vm_compute; split; reflexivity).
  assert (H2 : in_grid (4, 4)%Z) by (vm_compute; split; reflexivity).
  assert (H3 : in_grid (0, 4)%Z) by (vm_compute; split; reflexivity).
  assert (H4 : in_grid (4, 0)%Z) by (vm_compute; split; reflexivity).
  apply (proj2 (do_intersect_exact_on_grid _ _ _ _ H1 H2 H3 H4)).
  left. split; vm_compute; discriminate.
Defined.

(** X11.  On such points the orientation of a triple does not change when
    the triple is rotated, [p, q, r] to [q, r, p]. *)
Theorem orientation_rotated_on_grid (p q r : zpoint) :
  in_grid p -> in_grid q -> in_grid r ->
  orientation (float_point q) (float_point r) (float_point p)
  = orientation (float_point p) (float_point q) (float_point r).
Proof.
  intros Hp Hq Hr. rewrite !orientation_grid by assumption.
  unfold orientation_Z. now rewrite cross_cyclic.
Qed.

Lemma orientation_rotated_on_grid_example :
  let p : zpoint := (0, 0)%Z in
  let q : zpoint := (4, 1)%Z in
  let r : zpoint := (8, 3)%Z in
  orientation (float_point q) (float_point r) (float_point p)
  = orientation (float_point p) (float_point q) (float_point r).
Proof.
  cbv zeta.
  apply orientation_rotated_on_grid; vm_compute; split; reflexivity.
Defined.

(** X12.  The intersection test of two segments with integer coordinates
    below [2^24] in absolute value does not change under a translation by an
    integer vector of that kind. *)
Theorem do_intersect_translated_on_grid (t p1 q1 p2 q2 : zpoint) :
  in_half_grid t -> in_half_grid p1 -> in_half_grid q1 ->
  in_half_grid p2 -> in_half_grid q2 ->
  do_intersect (translate (float_point t) (float_point p1))
               (translate (float_point t) (float_point q1))
               (translate (float_point t) (float_point p2))
               (translate (float_point t) (float_point q2))
  = do_intersect (float_point p1) (float_point q1)
                 (float_point p2) (float_point q2).
Proof.
  intros Ht H1 H2 H3 H4.
  rewrite !translate_float_point by (apply half_grid_in_grid; assumption).
  rewrite !do_intersect_grid
    by (apply translate_in_grid || apply half_grid_in_grid; assumption).
  apply do_intersect_Z_translate.
Qed.

Lemma do_intersect_translated_on_grid_example :
  let t : zpoint := (100, -250)%Z in
  let p1 : zpoint := (0, 0)%Z in
  let q1 : zpoint := (4, 4)%Z in
  let p2 : zpoint := (0, 4)%Z in
  let q2 : zpoint := (5, 1)%Z in
  do_intersect (translate (float_point t) (float_point p1))
               (translate (float_point t) (float_point q1))
               (translate (float_point t) (float_point p2))
               (translate (float_point t) (float_point q2))
  = do_intersect (float_point p1) (float_point q1)
                 (float_point p2) (float_point q2).
Proof.
  cbv zeta.
  apply do_intersect_translated_on_grid; vm_compute; split; reflexivity.
Defined.

(** ** The polygon validator *)

(** X13.  [validate_polygon] ends in one of five ways: it hands back the
    vertex sequence it was given or raises one of its four errors.  The
    access to [coordinates[0]] never fails, since the size check comes
    first. *)
Theorem validate_polygon_outcomes (l : list vertex) :
  validate_polygon l = Ok l \/
  validate_polygon l = Raise TooFewPoints \/
  validate_polygon l = Raise NotClosed \/
  validate_polygon l = Raise DuplicateVertex \/
  validate_polygon l = Raise SelfIntersecting.
Proof.
  rewrite validate_polygon_outcome.
  destruct (length l <? 4)%nat; [tauto|].
  destruct (negb (is_closed l)); [tauto|].
  destruct (negb _); [tauto|].
  destruct (has_self_intersections (map xy l)); tauto.
Qed.

(** X14.  The duplicate test [len(set(xs)) != len(xs)]: the set is never
    longer than the list, and it is shorter exactly when two entries of the
    list, at different places, are equal. *)
Theorem set_counts_distinct_points (l : list vertex) :
  (length (set_of l) <= length l)%nat /\
  (length (set_of l) <> length l <-> repeated_point l).
Proof.
  split; [apply set_of_length|].
  rewrite <- Nat.eqb_neq. apply duplicate_test_iff.
Qed.

(** X15.  A vertex sequence is accepted exactly when it has at least 4
    points, its first point equals its last, no point occurs twice before
    the closing one and the scan reports no intersection. *)
Theorem validate_polygon_accepts (l : list vertex) :
  validate_polygon l = Ok l <->
  (4 <= length l)%nat /\ is_closed l = true /\
  ~ repeated_point (removelast l) /\ has_self_intersections (map xy l) = false.
Proof.
  rewrite validate_polygon_outcome.
  destruct (Nat.ltb_spec (length l) 4) as [Hs | Hn].
  { split; [discriminate | lia]. }
  destruct (is_closed l); cbn [negb].
  2:{ split; [discriminate | intros (_ & H & _); discriminate]. }
  destruct (length (set_of (removelast l)) =? length (removelast l))%nat eqn:E;
    cbn [negb].
  2:{ apply duplicate_test_iff in E.
      split; [discriminate | intros (_ & _ & H & _); contradiction]. }
  assert (Hnr : ~ repeated_point (removelast l)).
  { intros H. apply duplicate_test_iff in H. congruence. }
  destruct (has_self_intersections (map xy l)).
  - split; [discriminate | intros (_ & _ & _ & H); discriminate].
  - tauto.
Qed.

(** X16.  [DuplicateVertex] is raised exactly for the closed sequences of at
    least 4 points in which a point occurs twice before the closing one. *)
Theorem duplicate_vertex_iff (l : list vertex) :
  validate_polygon l = Raise DuplicateVertex <->
  (4 <= length l)%nat /\ is_closed l = true /\ repeated_point (removelast l).
Proof.
  rewrite validate_polygon_outcome.
  destruct (Nat.ltb_spec (length l) 4) as [Hs | Hn].
  { split; [discriminate | lia]. }
  destruct (is_closed l); cbn [negb].
  2:{ split; [discriminate | intros (_ & H & _); discriminate]. }
  destruct (length (set_of (removelast l)) =? length (removelast l))%nat eqn:E;
    cbn [negb].
  - assert (Hnr : ~ repeated_point (removelast l)).
    { intros H. apply duplicate_test_iff in H. congruence. }
    destruct (has_self_intersections (map xy l));
      (split; [discriminate | intros (_ & _ & H); contradiction]).
  - apply duplicate_test_iff in E. tauto.
Qed.

(** X17.  [SelfIntersecting] is raised exactly for the closed sequences of at
    least 4 points without repeated point in which [do_intersect] reports
    some pair of edges. *)
Theorem self_intersecting_iff (l : list vertex) :
  validate_polygon l = Raise SelfIntersecting <->
  (4 <= length l)%nat /\ is_closed l = true /\
  ~ repeated_point (removelast l) /\ exists i j, intersecting_pair (map xy l) i j.
Proof.
  rewrite <- scan_true_iff, validate_polygon_outcome.
  destruct (Nat.ltb_spec (length l) 4) as [Hs | Hn].
  { split; [discriminate | lia]. }
  destruct (is_closed l); cbn [negb].
  2:{ split; [discriminate | intros (_ & H & _); discriminate]. }
  destruct (length (set_of (removelast l)) =? length (removelast l))%nat eqn:E;
    cbn [negb].
  2:{ apply duplicate_test_iff in E.
      split; [discriminate | intros (_ & _ & H & _); contradiction]. }
  assert (Hnr : ~ repeated_point (removelast l)).
  { intros H. apply duplicate_test_iff in H. congruence. }
  destruct (has_self_intersections (map xy l)).
  - tauto.
  - split; [discriminate | intros (_ & _ & _ & H); discriminate].
Qed.

(** X18.  [TooFewPoints] is raised for the sequences of fewer than 4 points
    and no others, [NotClosed] for the sequences of at least 4 points whose
    first and last point differ and no others.  Equality of points is that
    of [==] on the tuples throughout: the same NaN object is equal to
    itself. *)
Theorem size_and_closure_errors (l : list vertex) :
  (validate_polygon l = Raise TooFewPoints <-> (length l < 4)%nat) /\
  (validate_polygon l = Raise NotClosed <->
   (4 <= length l)%nat /\ is_closed l = false).
Proof.
  rewrite validate_polygon_outcome.
  destruct (Nat.ltb_spec (length l) 4) as [Hs | Hn].
  { split; split; try discriminate; try tauto; lia. }
  destruct (is_closed l); cbn [negb].
  2:{ split; split; try discriminate; try tauto; lia. }
  destruct (negb _);
    [|destruct (has_self_intersections (map xy l))];
    (split; split; try discriminate; try lia; intros (_ & H); discriminate).
Qed.

(** X25.  A sequence of at least 4 points whose last tuple holds the same two
    float objects as its first passes the closure test, also when one of
    them is NaN: it never fails with [NotClosed]. *)
Theorem same_objects_close (l : list vertex) (p : vertex) :
  (4 <= length l)%nat ->
  first_last l = Some (p, p) ->
  is_closed l = true /\ validate_polygon l <> Raise NotClosed.
Proof.
  intros Hn Hfl.
  assert (Hc : is_closed l = true)
    by (unfold is_closed; rewrite Hfl; apply tuple_eqb_refl).
  split; [exact Hc|].
  rewrite validate_polygon_outcome, Hc. apply Nat.ltb_ge in Hn. rewrite Hn.
  cbn [negb].
  destruct (negb _); [discriminate|].
  destruct (has_self_intersections _); discriminate.
Qed.

Lemma same_objects_close_shared_nan :
  let n : pyfloat := (nan, 0%nat) in
  let p : vertex := (n, (of_Z 0, 1%nat)) in
  let l := [p; ((of_Z 1, 2%nat), n); (n, (of_Z 1, 3%nat)); p] in
  has_nan (xy p) = true /\
  is_closed l = true /\ validate_polygon l <> Raise NotClosed.
Proof.
  cbv zeta. split; [reflexivity|].
  apply (same_objects_close _ ((nan, 0%nat), (of_Z 0, 1%nat))).
  - vm_compute. lia.
  - reflexivity.
Defined.

(** X26.  A sequence of at least 4 points whose first point has a NaN
    coordinate that is not the same object as the coordinate at that place
    in the last point fails with [NotClosed]. *)
Theorem nan_objects_apart_not_closed (l : list vertex) (p q : vertex) :
  (4 <= length l)%nat ->
  first_last l = Some (p, q) ->
  (is_nan (fst (fst p)) = true /\ snd (fst p) <> snd (fst q)) \/
  (is_nan (fst (snd p)) = true /\ snd (snd p) <> snd (snd q)) ->
  validate_polygon l = Raise NotClosed.
Proof.
  intros Hn Hfl H. rewrite (validate_polygon_long l Hn), Hfl.
  assert (Hpq : tuple_eqb p q = false).
  { unfold tuple_eqb. destruct H as [[Hx Hi] | [Hy Hj]].
    - now rewrite (item_eqb_nan_apart _ _ Hx Hi).
    - rewrite (item_eqb_nan_apart _ _ Hy Hj). apply andb_false_r. }
  now rewrite Hpq.
Qed.

Lemma nan_objects_apart_not_closed_example :
  let l := objects [(nan, of_Z 0); point_of_Z 1 1; point_of_Z 2 0;
                    (nan, of_Z 0)] in
  validate_polygon l = Raise NotClosed.
Proof.
  cbv zeta.
  apply (nan_objects_apart_not_closed _ (fresh (nan, of_Z 0) 0)
                                        (fresh (nan, of_Z 0) 6)).
  - vm_compute. lia.
  - reflexivity.
  - left. split; [reflexivity|]. cbn. lia.
Defined.

(** X27.  The identity of the float objects matters for NaN only: two
    sequences with the same coordinate values, none of them NaN, are both
    accepted or fail with the same error, whichever objects hold the
    values. *)
Theorem objects_matter_for_nan_only (l l' : list vertex) :
  map xy l = map xy l' ->
  forallb (fun p => negb (has_nan (xy p))) l = true ->
  (validate_polygon l = Ok l /\ validate_polygon l' = Ok l') \/
  (exists e, validate_polygon l = Raise e /\ validate_polygon l' = Raise e).
Proof.
  intros Hxy Hn.
  pose proof (same_values_lists l l' Hxy Hn) as H.
  rewrite !validate_polygon_outcome.
  rewrite <- (Forall2_length H), <- (same_values_closed l l' H), <- Hxy.
  rewrite <- (same_values_set_length _ _ (same_values_removelast l l' H)).
  rewrite <- (Forall2_length (same_values_removelast l l' H)).
  destruct (length l <? 4)%nat; [right; eexists; split; reflexivity|].
  destruct (negb (is_closed l)); [right; eexists; split; reflexivity|].
  destruct (negb _); [right; eexists; split; reflexivity|].
  destruct (has_self_intersections _); [right; eexists; split; reflexivity|].
  left. split; reflexivity.
Qed.

Lemma objects_matter_for_nan_only_square :
  let o : pyfloat := (of_Z 0, 0%nat) in
  let i : pyfloat := (of_Z 1, 1%nat) in
  let l' := [(o, o); (o, i); (i, i); (i, o); (o, o)] in
  map xy (objects square) = map xy l' /\
  ((validate_polygon (objects square) = Ok (objects square) /\
    validate_polygon l' = Ok l') \/
   (exists e, validate_polygon (objects square) = Raise e /\
              validate_polygon l' = Raise e)).
Proof.
  cbv zeta.
  assert (H : map xy (objects square)
              = map xy [((of_Z 0, 0%nat), (of_Z 0, 0%nat));
                        ((of_Z 0, 0%nat), (of_Z 1, 1%nat));
                        ((of_Z 1, 1%nat), (of_Z 1, 1%nat));
                        ((of_Z 1, 1%nat), (of_Z 0, 0%nat));
                        ((of_Z 0, 0%nat), (of_Z 0, 0%nat))]) by reflexivity.
  split; [exact H|].
  apply (objects_matter_for_nan_only _ _ H). reflexivity.
Defined.

(** Three sequences with NaN coordinates, each validated twice: with one
    NaN object in all the places where NaN stands, as a parser hands it
    over that keeps one object for the constant, and with a NaN object of
    its own in every place. *)
Example nan_sequences_shared_and_apart :
  let n : pyfloat := (nan, 0%nat) in
  let f (z : Z) (i : ident) : pyfloat := (of_Z z, i) in
  let l1 := [(n, f 0%Z 1); (f 1%Z 2, f 1%Z 3); (f 2%Z 4, f 0%Z 5);
             (n, f 0%Z 6)] in
  let l2 := [(n, f 0%Z 1); (f 1%Z 2, n); (n, f 1%Z 3); (n, f 0%Z 4)] in
  let l3 := [(f 0%Z 1, f 0%Z 2); (n, f 1%Z 3); (n, f 1%Z 4); (f 1%Z 5, f 0%Z 6);
             (f 0%Z 7, f 0%Z 8)] in
  (validate_polygon l1 = Raise SelfIntersecting /\
   validate_polygon (objects (map xy l1)) = Raise NotClosed) /\
  (validate_polygon l2 = Ok l2 /\
   validate_polygon (objects (map xy l2)) = Raise NotClosed) /\
  (validate_polygon l3 = Raise DuplicateVertex /\
   validate_polygon (objects (map xy l3)) = Raise SelfIntersecting).
Proof. cbv zeta. repeat split; vm_compute; reflexivity. Qed.

(** ** The research request *)

Module Request.







End Request.

(** X19.  A collection of individually valid descriptors is accepted,
    unchanged and in its order, exactly when at most one of them is a text
    descriptor, and rejected with [TooManyTextDescriptors] exactly when there
    are two or more. *)
Theorem text_description_limit (ds : list Description) :
  Forall valid_description ds ->
  (validate_collection ds = Ok ds <->
   (length (text_descriptions ds) <= 1)%nat) /\
  (validate_collection ds = Raise TooManyTextDescriptors <->
   (2 <= length (text_descriptions ds))%nat).
Proof.
  intros Hv. rewrite (validate_collection_valid ds Hv).
  destruct (Nat.ltb_spec 1 (length (text_descriptions ds))) as [H | H];
    split; split; try discriminate; try reflexivity; lia.
Qed.

Lemma text_description_limit_three :
  let a := IsText {| text_type := "text"; text_text := "a" |} in
  let b := IsText {| text_type := "text"; text_text := "b" |} in
  let c := IsText {| text_type := "note"; text_text := "c" |} in
  validate_collection [a; b; c] = Raise TooManyTextDescriptors /\
  validate_collection [a] = Ok [a].
Proof.
  cbv zeta.
  set (a := IsText {| text_type := "text"; text_text := "a" |}).
  set (b := IsText {| text_type := "text"; text_text := "b" |}).
  set (c := IsText {| text_type := "note"; text_text := "c" |}).
  assert (H3 : Forall valid_description [a; b; c]) by (repeat constructor).
  assert (H1 : Forall valid_description [a]) by (repeat constructor).
  split.
  - apply (proj2 (proj2 (text_description_limit _ H3))). cbn. lia.
  - apply (proj2 (proj1 (text_description_limit _ H1))). cbn. lia.
Defined.



(** ** NaN coordinates, short sequences and the direction of a segment *)

(** X21.  [do_intersect] answers false whenever each of the two segments has
    an end point with a NaN coordinate, all four orientations being 2; so
    the scan reports nothing on a vertex sequence in which every edge has
    such an end point. *)
Theorem nan_hides_intersections :
  (forall p1 q1 p2 q2 : point,
     has_nan p1 || has_nan q1 = true -> has_nan p2 || has_nan q2 = true ->
     do_intersect p1 q1 p2 q2 = false) /\
  (forall l : list point,
     (forall i, (i + 1 < length l)%nat ->
        has_nan (getitem l i) || has_nan (getitem l (i + 1)) = true) ->
     has_self_intersections l = false).
Proof.
  split; [exact do_intersect_nan|].
  intros l H. apply scan_false_iff. intros i j Hij Hj.
  apply do_intersect_nan; apply H; lia.
Qed.

Lemma nan_hides_intersections_example :
  has_self_intersections
    [point_of_Z 0 0; (nan, nan); point_of_Z 1 1; (nan, nan); point_of_Z 0 0]
  = false.
Proof.
  apply (proj2 nan_hides_intersections).
  intros i Hi. cbn [length] in Hi.
  destruct i as [ | [ | [ | [ | i]]]]; try reflexivity. lia.
Defined.

(** X22.  On vertex sequences with integer coordinates below [2^25] in
    absolute value the scan depends on the number of points only: it reports
    an intersection exactly when there are at least 3 points, that is, as
    soon as there are two edges to compare. *)
Theorem scan_on_grid (l : list zpoint) :
  Forall in_grid l ->
  has_self_intersections (map float_point l) = (3 <=? length l)%nat.
Proof.
  intros Hg. destruct (Nat.leb_spec 3 (length l)) as [H | H].
  - apply scan_true_iff. exists 0%nat, 1%nat.
    unfold intersecting_pair. rewrite length_map.
    split; [lia|]. split; [lia|].
    apply do_intersect_consecutive.
    destruct l as [ | a [ | b l']]; cbn [length] in H; try lia.
    inversion Hg as [ | ? ? Ha Hg']; subst.
    inversion Hg' as [ | ? ? Hb _]; subst.
    now apply finite_edge_grid.
  - apply scan_false_iff. intros i j Hij Hj.
    rewrite length_map in Hj. lia.
Qed.

Lemma scan_on_grid_triangle :
  let l : list zpoint := [(0, 0); (4, 0); (0, 3)]%Z in
  has_self_intersections (map float_point l) = true.
Proof.
  cbv zeta.
  apply (scan_on_grid [(0, 0); (4, 0); (0, 3)]%Z).
  repeat constructor.
Defined.

(** X23.  [on_segment p q r] does not depend on the direction of the
    segment, as long as no coordinate of [p] and [r] is NaN. *)
Theorem on_segment_direction (p q r : point) :
  has_nan p = false -> has_nan r = false ->
  on_segment r q p = on_segment p q r.
Proof.
  unfold has_nan. rewrite !orb_false_iff. intros [Hpx Hpy] [Hrx Hry].
  unfold on_segment, geb.
  fold (leb (min (fst r) (fst p)) (fst q)).
  fold (leb (min (snd r) (snd p)) (snd q)).
  fold (leb (min (fst p) (fst r)) (fst q)).
  fold (leb (min (snd p) (snd r)) (snd q)).
  rewrite (leb_feq_r _ _ (fst q) (max_swap (fst p) (fst r) Hpx Hrx)).
  rewrite (leb_feq_r _ _ (snd q) (max_swap (snd p) (snd r) Hpy Hry)).
  rewrite (leb_feq_l _ _ (fst q) (min_swap (fst p) (fst r) Hpx Hrx)).
  rewrite (leb_feq_l _ _ (snd q) (min_swap (snd p) (snd r) Hpy Hry)).
  reflexivity.
Qed.

Lemma on_segment_direction_example :
  let p := (ldexp 1 (-3), of_Z 5) in
  let q := point_of_Z 1 2 in
  let r := (of_Z 7, S754_infinity true) in
  on_segment r q p = on_segment p q r.
Proof.
  cbv zeta. apply on_segment_direction; reflexivity.
Defined.


